(** * elysia-background: the deferred-work queue and its drain

    A shallow embedding of [src/index.ts] of elysia-background:
    [isAsyncFunction], the classes [BackgroundTask] and [BackgroundTasks],
    and the two hooks that the plugin [background] installs ([derive] and
    [onAfterResponse]).

    JavaScript values that the code only passes around (arguments, thrown
    errors) are a small inductive type.  Function objects and arrays are
    heap objects: they are named by references, so that two holders of the
    same array see each other's pushes, as in the source.  An [await] is
    modelled by its result: the awaited promise is fulfilled, is rejected
    with a value, or never settles. *)

From Stdlib Require Import ZArith.
From stdpp Require Import gmap strings list.

(** ** Values and heap objects *)

Inductive Value : Type :=
  | VUndefined
  | VBool (b : bool)
  | VNum (n : Z)
  | VStr (s : string)
  | VError (message : string).

(** References to function objects and to array objects. *)
Definition FuncRef := nat.
Definition ArrRef := nat.

(** [class BackgroundTask]: the three readonly fields. *)
Record BackgroundTask : Type := MkTask {
  func : FuncRef;
  args : list Value;
  isAsync : bool;
}.

(** What user code can read and write: the arrays (among them every
    queue's [tasks] array), the variables that callables close over, and the
    lines given to [console.error]. *)
Record Store : Type := MkStore {
  arrays : gmap nat (list BackgroundTask);
  globals : gmap string Value;
  console : list (list Value);
}.

(** The state of the promise that an [await] waits for. *)
Inductive Outcome : Type :=
  | Fulfilled
  | Rejected (error : Value)
  | Pending.

(** How a plain (not awaited) call ends. *)
Inductive Completion : Type :=
  | Normal
  | Throw (error : Value).

(** A function object: the [name] of its [constructor], and what awaiting a
    call of it does to the store. Every function object is taken to have a
    constructor with a name, as the functions that function syntax creates
    have. The outcome is that of [await f(...args)]: for an async function
    the state of the promise it returns; for another function, fulfilled when
    it returns a plain value and rejected when it throws. *)
Record FuncObj : Type := MkFunc {
  constructor_name : string;
  call : list Value -> Store -> Outcome * Store;
}.

(** Ghost record of the calls that the library makes into user code, in
    the order it makes them. User code cannot touch it. *)
Inductive Event : Type :=
  | EvInvoke (f : FuncRef) (a : list Value)
  | EvOnError (error : Value).

Record Machine : Type := MkMachine {
  store : Store;
  trace : list Event;
  unhandled : list Value;
}.

(** [type BackgroundOptions]. The handler is called, never awaited:
    its completion is [Throw] when it throws or when the promise it returns
    is rejected. *)
Record BackgroundOptions : Type := MkOptions {
  onError : option (Value -> Store -> Completion * Store);
}.

(** [class BackgroundTasks]: the field [tasks] holds an array reference. *)
Record BackgroundTasks : Type := MkTasks {
  tasks : ArrRef;
}.

(** The array behind a reference. References handed out by [new] are always
    live; a reference that was never allocated reads as the empty array. *)
Definition tasks_at (a : ArrRef) (s : Store) : list BackgroundTask :=
  default [] (arrays s !! a).

Definition set_tasks (a : ArrRef) (l : list BackgroundTask) (s : Store) : Store :=
  {| arrays := <[a := l]> (arrays s); globals := globals s; console := console s |}.

Definition set_store (s : Store) (m : Machine) : Machine :=
  {| store := s; trace := trace m; unhandled := unhandled m |}.

(** [console.error(...line)]. *)
Definition console_error (line : list Value) (s : Store) : Store :=
  {| arrays := arrays s; globals := globals s; console := console s ++ [line] |}.

(** The error that [BackgroundTask.run] throws for a function that is not
    async. *)
Definition TaskKindError : Value :=
  VError "Background task does not support synchronous functions. Please use async functions.".

Definition default_tag : Value := VStr "[elysia-background] Task failed:".

Section Engine.

(** The function objects of the program. *)
Variable funcs : FuncRef -> FuncObj.

(** [func.constructor.name === 'AsyncFunction'] *)
Definition isAsyncFunction (f : FuncRef) : bool :=
  String.eqb (constructor_name (funcs f)) "AsyncFunction".

(** [constructor(func, ...args)] of [BackgroundTask]. *)
Definition new_BackgroundTask (f : FuncRef) (a : list Value) : BackgroundTask :=
  {| func := f; args := a; isAsync := isAsyncFunction f |}.

(** [BackgroundTask.run]: [await this.func(...this.args)] when [isAsync],
    else the promise is rejected with a new [Error]. *)
Definition BackgroundTask_run (t : BackgroundTask) (m : Machine) : Outcome * Machine :=
  if isAsync t then
    let r := call (funcs (func t)) (args t) (store m) in
    (r.1, {| store := r.2;
             trace := trace m ++ [EvInvoke (func t) (args t)];
             unhandled := unhandled m |})
  else (Rejected TaskKindError, m).

(** [constructor(tasks = [])] of [BackgroundTasks]: the array given, or a
    fresh empty one. *)
Definition new_BackgroundTasks (given : option ArrRef) (s : Store) : BackgroundTasks * Store :=
  match given with
  | Some a => ({| tasks := a |}, s)
  | None =>
      let a := fresh (dom (arrays s)) in
      ({| tasks := a |}, set_tasks a [] s)
  end.

(** [addTask(func, ...args)]: build the task, push it on [this.tasks]. *)
Definition addTask (q : BackgroundTasks) (f : FuncRef) (a : list Value) (s : Store) : Store :=
  let task := new_BackgroundTask f a in
  set_tasks (tasks q) (tasks_at (tasks q) s ++ [task]) s.

(** [for (const task of this.tasks) await task.run()]. The array iterator
    keeps the array reference and an index; each step reads the array as it
    is then, ends when the index is past its length, and otherwise yields
    the element and moves on. [fuel] bounds the number of steps; [None] is
    a drain that has not ended within [fuel] steps. *)
Fixpoint run_loop (fuel : nat) (a : ArrRef) (i : nat) (m : Machine)
  : option (Outcome * Machine) :=
  match fuel with
  | O => None
  | S fuel' =>
      match tasks_at a (store m) !! i with
      | None => Some (Fulfilled, m)
      | Some task =>
          match BackgroundTask_run task m with
          | (Fulfilled, m') => run_loop fuel' a (S i) m'
          | (o, m') => Some (o, m')
          end
      end
  end.

(** [BackgroundTasks.run] *)
Definition BackgroundTasks_run (fuel : nat) (q : BackgroundTasks) (m : Machine)
  : option (Outcome * Machine) :=
  run_loop fuel (tasks q) 0 m.

(** The callback that [onAfterResponse] gives to [.catch]: the configured
    handler when [options?.onError] is there, else [console.error] with the
    tag. The handler's result is dropped; when it throws, the promise that
    [.catch] returned is rejected and nobody holds it. *)
Definition catch_callback (options : option BackgroundOptions) (error : Value)
    (m : Machine) : Machine :=
  match options ≫= onError with
  | Some handler =>
      let r := handler error (store m) in
      {| store := r.2;
         trace := trace m ++ [EvOnError error];
         unhandled := match r.1 with
                      | Normal => unhandled m
                      | Throw e => unhandled m ++ [e]
                      end |}
  | None => set_store (console_error [default_tag; error] (store m)) m
  end.

(** [backgroundTasks.run().catch(callback)]: the promise chain that the
    hook starts and leaves behind. The machine is the one in which the chain
    has gone as far as it goes. *)
Definition detached (options : option BackgroundOptions) (fuel : nat)
    (q : BackgroundTasks) (m : Machine) : option Machine :=
  match BackgroundTasks_run fuel q m with
  | None => None
  | Some (Rejected error, m') => Some (catch_callback options error m')
  | Some (_, m') => Some m'
  end.

(** The [onAfterResponse] handler of [background(options)]: a block body
    with one expression statement, so the call returns [undefined] whatever
    the chain does. *)
Definition onAfterResponse (options : option BackgroundOptions) (fuel : nat)
    (q : BackgroundTasks) (m : Machine) : Completion * option Machine :=
  (Normal, detached options fuel q m).

(** The [derive] hook of [background(options)]: a new queue per request. *)
Definition derive (s : Store) : BackgroundTasks * Store :=
  new_BackgroundTasks None s.

(** One request as the tests drive it: [derive], the route handler, then
    [onAfterResponse]. *)
Definition handle (options : option BackgroundOptions)
    (route : BackgroundTasks -> Store -> Store) (fuel : nat) (m : Machine)
  : Completion * option Machine :=
  let d := derive (store m) in
  onAfterResponse options fuel d.1 (set_store (route d.1 d.2) m).

(** ** Notions used to state the properties *)

(** The event that invoking the callable of [t] leaves. *)
Definition invocation (t : BackgroundTask) : Event :=
  EvInvoke (func t) (args t).

(** What awaiting the callable of [t] does to the store. *)
Definition effect (s : Store) (t : BackgroundTask) : Store :=
  (call (funcs (func t)) (args t) s).2.

(** Draining a given list of tasks, following the words of the
    specification: one task after the other in the order of the list, each
    run to its end before the next starts, stopping at the first that does
    not succeed. *)
Fixpoint run_tasks (l : list BackgroundTask) (m : Machine) : Outcome * Machine :=
  match l with
  | [] => (Fulfilled, m)
  | t :: l' =>
      match BackgroundTask_run t m with
      | (Fulfilled, m') => run_tasks l' m'
      | r => r
      end
  end.

(** Every task of the list succeeds when it is run in its turn. *)
Fixpoint succeed_in_turn (l : list BackgroundTask) (m : Machine) : Prop :=
  match l with
  | [] => True
  | t :: l' =>
      (BackgroundTask_run t m).1 = Fulfilled
      ∧ succeed_in_turn l' (BackgroundTask_run t m).2
  end.

(** The drain has taken [n] steps from index [i], each of them found a
    task in the array as it was then, and each task succeeded. *)
Fixpoint advance (n : nat) (a : ArrRef) (i : nat) (m : Machine) : option Machine :=
  match n with
  | O => Some m
  | S n' =>
      match tasks_at a (store m) !! i with
      | None => None
      | Some task =>
          match BackgroundTask_run task m with
          | (Fulfilled, m') => advance n' a (S i) m'
          | _ => None
          end
      end
  end.

(** The callable [f] never changes the array [a]. *)
Definition leaves_array (a : ArrRef) (f : FuncRef) : Prop :=
  ∀ x s, tasks_at a (call (funcs f) x s).2 = tasks_at a s.

(** The callable [f] at most pushes on the array [a]. *)
Definition only_pushes (a : ArrRef) (f : FuncRef) : Prop :=
  ∀ x s, tasks_at a s `prefix_of` tasks_at a (call (funcs f) x s).2.

End Engine.

(** ** The programs of the test suite

    The callables that [test/index.test.ts] hands to [addTask], and a few
    more of the same kind, as one table of function objects. *)

Module Demo.

Definition counter (s : Store) : Z :=
  match globals s !! "taskCounter" with
  | Some (VNum n) => n
  | _ => 0%Z
  end.

Definition set_global (x : string) (v : Value) (s : Store) : Store :=
  {| arrays := arrays s; globals := <[x := v]> (globals s); console := console s |}.

Definition amount (x : list Value) : Z :=
  match x with
  | VNum n :: _ => n
  | _ => 0%Z
  end.

(** [async (amount) => { taskCounter += amount }], for whole amounts in the
    range where the numbers of JavaScript add exactly. *)
Definition increment : FuncObj :=
  {| constructor_name := "AsyncFunction";
     call := λ x s,
       (Fulfilled, set_global "taskCounter" (VNum (counter s + amount x)) s) |}.

(** [async () => { taskCounter += 1; if (taskCounter === 1) throw new Error('task failed') }] *)
Definition increment_fail_first : FuncObj :=
  {| constructor_name := "AsyncFunction";
     call := λ x s,
       let s' := set_global "taskCounter" (VNum (counter s + 1)) s in
       (if (counter s' =? 1)%Z then Rejected (VError "task failed") else Fulfilled, s') |}.

(** [() => { taskComplete = true }], a function that is not async. *)
Definition sync_task : FuncObj :=
  {| constructor_name := "Function";
     call := λ x s, (Fulfilled, set_global "taskComplete" (VBool true) s) |}.

(** [async () => { throw new Error('Test sync error') }] *)
Definition failing : FuncObj :=
  {| constructor_name := "AsyncFunction";
     call := λ x s, (Rejected (VError "Test sync error"), s) |}.

(** [async () => { taskStarted = true; await forever }] *)
Definition stuck : FuncObj :=
  {| constructor_name := "AsyncFunction";
     call := λ x s, (Pending, set_global "taskStarted" (VBool true) s) |}.

(** [async () => { queue.addTask(increment, 10) }] for the queue whose
    array is number 0. *)
Definition enqueue_more : FuncObj :=
  {| constructor_name := "AsyncFunction";
     call := λ x s,
       (Fulfilled,
        set_tasks 0 (tasks_at 0 s ++ [{| func := 0; args := [VNum 10]; isAsync := true |}]) s) |}.

(** [async () => {}] *)
Definition noop : FuncObj :=
  {| constructor_name := "AsyncFunction"; call := λ x s, (Fulfilled, s) |}.

Definition funcs (f : FuncRef) : FuncObj :=
  match f with
  | 0 => increment
  | 1 => increment_fail_first
  | 2 => sync_task
  | 3 => failing
  | 4 => stuck
  | 5 => enqueue_more
  | _ => noop
  end.

(** [async () => { queue.tasks.length = 0 }] for the same queue, and a
    program that has it as its function number 0. *)
Definition clear_queue : FuncObj :=
  {| constructor_name := "AsyncFunction";
     call := λ x s, (Fulfilled, set_tasks 0 [] s) |}.

(** [async function respawn() { queue.addTask(respawn) }] for the same
    queue. *)
Definition respawn : FuncObj :=
  {| constructor_name := "AsyncFunction";
     call := λ x s,
       (Fulfilled,
        set_tasks 0 (tasks_at 0 s ++ [{| func := 1; args := []; isAsync := true |}]) s) |}.

Definition hostile (f : FuncRef) : FuncObj :=
  match f with
  | 0 => clear_queue
  | 1 => respawn
  | _ => noop
  end.

Definition empty_store : Store :=
  {| arrays := ∅; globals := ∅; console := [] |}.

Definition boot : Machine :=
  {| store := empty_store; trace := []; unhandled := [] |}.

(** A machine whose array 0 holds the given tasks. *)
Definition with_queue (l : list BackgroundTask) : Machine :=
  set_store (set_tasks 0 l empty_store) boot.

Definition the_queue : BackgroundTasks := {| tasks := 0 |}.

Definition task (f : FuncRef) (a : list Value) : BackgroundTask :=
  new_BackgroundTask funcs f a.

(** [onError: (error) => { capturedError = error }] *)
Definition capture : BackgroundOptions :=
  {| onError := Some (λ e s, (Normal, set_global "capturedError" e s)) |}.

(** [onError: (error) => { throw error }] *)
Definition rethrow : BackgroundOptions :=
  {| onError := Some (λ e s, (Throw e, s)) |}.

(** The route handlers of the tests. *)
Definition route_three (q : BackgroundTasks) (s : Store) : Store :=
  addTask funcs q 0 [VNum 3]
    (addTask funcs q 0 [VNum 2] (addTask funcs q 0 [VNum 1] s)).

Definition route_fail_first (q : BackgroundTasks) (s : Store) : Store :=
  addTask funcs q 1 [] (addTask funcs q 1 [] s).

Definition route_sync (q : BackgroundTasks) (s : Store) : Store :=
  addTask funcs q 2 [] s.

Definition route_failing (q : BackgroundTasks) (s : Store) : Store :=
  addTask funcs q 3 [] s.

(** Queues used as concrete inputs. *)
Definition three_increments : list BackgroundTask :=
  [task 0 [VNum 1]; task 0 [VNum 2]; task 0 [VNum 3]].

Definition fail_in_the_middle : list BackgroundTask :=
  [task 0 [VNum 5]; task 3 []; task 0 [VNum 7]].

Definition push_then_fail : list BackgroundTask :=
  [task 5 []; task 3 []].

(** The tasks of the program [hostile]. *)
Definition wiper : BackgroundTask := new_BackgroundTask hostile 0 [].
Definition respawner : BackgroundTask := new_BackgroundTask hostile 1 [].
Definition bystander : BackgroundTask := new_BackgroundTask hostile 2 [].

(** A program like [funcs] whose functions all claim the constructor
    name of plain functions. *)
Definition renamed (f : FuncRef) : FuncObj :=
  {| constructor_name := "Function"; call := call (funcs f) |}.

(** [function () { return new Promise(() => {}) }]: a function that is not
    async and returns a promise, one that nothing settles; and a program
    whose functions are all this one. *)
Definition promise_returner : FuncObj :=
  {| constructor_name := "Function"; call := λ x s, (Pending, s) |}.

Definition plain (f : FuncRef) : FuncObj := promise_returner.






End Demo.

(** ** Pushes during a drain, read without proviso

    "A task pushed on the array while the drain is under way is executed in
    that drain", with nothing said of the tasks before it: whenever a drain ends, every async task
    that sits in the array at an index that did not exist when the drain
    started has been invoked by that drain. *)
Definition pushed_tasks_always_run (funcs : FuncRef → FuncObj) : Prop :=
  ∀ (q : BackgroundTasks) (fuel : nat) (m m' : Machine) (o : Outcome)
    (i : nat) (t : BackgroundTask),
    BackgroundTasks_run funcs fuel q m = Some (o, m') →
    length (tasks_at (tasks q) (store m)) ≤ i →
    tasks_at (tasks q) (store m') !! i = Some t →
    isAsync t = true →
    invocation t ∈ drop (length (trace m)) (trace m').

(** ** Registering several tasks

    A route handler that calls [addTask] once for each pair of a callable
    and its arguments, in the order of the list. *)
Definition addTasks (funcs : FuncRef → FuncObj) (q : BackgroundTasks)
    (l : list (FuncRef * list Value)) (s : Store) : Store :=
  foldl (λ s' p, addTask funcs q p.1 p.2 s') s l.

(** ** The turn of the runtime in which the hook runs

    The runtime takes up one piece of work at a time. The call of the hook,
    and all that the promise chain does without waiting, happen in one turn:
    an [await] of a promise that is settled without outside help goes on
    before the runtime takes up another request. The runtime has control
    back when the chain has ended or has reached a call that waits for a
    timer, for input or output, or for a promise that nothing settles.

    [waits f x s] says that awaiting the call of [f] on [x] in [s] goes
    through such a wait. [yields_within fuel a i m] says that the drain of
    the array [a], from index [i] on, gives control back within [fuel] steps
    of the loop: at the end of the array, at a task that is not fulfilled
    (the callback of [.catch] runs and the chain ends), or at an async task
    whose call waits. Time spent computing inside a call is not measured. *)

Section Turn.

Variable funcs : FuncRef -> FuncObj.
Variable waits : FuncRef -> list Value -> Store -> bool.

Fixpoint yields_within (fuel : nat) (a : ArrRef) (i : nat) (m : Machine) : bool :=
  match fuel with
  | O => false
  | S fuel' =>
      match tasks_at a (store m) !! i with
      | None => true
      | Some task =>
          if isAsync task && waits (func task) (args task) (store m) then true
          else
            match BackgroundTask_run funcs task m with
            | (Fulfilled, m') => yields_within fuel' a (S i) m'
            | _ => true
            end
      end
  end.

End Turn.


(** ** The flag read as "the callable can suspend"

    An awaited call is left pending only when the callable has returned a
    promise, so a callable with such a call is one that can suspend. "The
    flag records whether the callable can suspend" then asks that its task
    has the flag set. *)
Definition flag_tells_suspension (funcs : FuncRef → FuncObj) : Prop :=
  ∀ (f : FuncRef) (a x : list Value) (s : Store),
    (call (funcs f) x s).1 = Pending →
    isAsync (new_BackgroundTask funcs f a) = true.

(** * Properties *)

(** ** Reading and writing arrays *)

Lemma tasks_at_set_tasks (a : ArrRef) (l : list BackgroundTask) (s : Store) :
  tasks_at a (set_tasks a l s) = l.
Proof. unfold tasks_at, set_tasks. simpl. now rewrite lookup_insert_eq. Qed.

Lemma tasks_at_set_tasks_ne (a b : ArrRef) (l : list BackgroundTask) (s : Store) :
  a ≠ b → tasks_at b (set_tasks a l s) = tasks_at b s.
Proof. intros H. unfold tasks_at, set_tasks. simpl. now rewrite lookup_insert_ne. Qed.

(** ** The scenarios of the test suite, run on the model *)

Example test_multiple_tasks :
  ∃ m, handle Demo.funcs None Demo.route_three 10 Demo.boot = (Normal, Some m)
       ∧ Demo.counter (store m) = 6%Z
       ∧ trace m = [EvInvoke 0 [VNum 1]; EvInvoke 0 [VNum 2]; EvInvoke 0 [VNum 3]]
       ∧ console (store m) = [] ∧ unhandled m = [].
Proof. eexists. split; [vm_compute; reflexivity|]. vm_compute. auto. Qed.

Example test_stop_when_task_fails :
  ∃ m, handle Demo.funcs (Some Demo.capture) Demo.route_fail_first 10 Demo.boot
         = (Normal, Some m)
       ∧ Demo.counter (store m) = 1%Z
       ∧ trace m = [EvInvoke 1 []; EvOnError (VError "task failed")]
       ∧ globals (store m) !! "capturedError" = Some (VError "task failed").
Proof. eexists. split; [vm_compute; reflexivity|]. vm_compute. auto. Qed.

Example default_sink_gets_the_error :
  ∃ m, handle Demo.funcs None Demo.route_failing 10 Demo.boot = (Normal, Some m)
       ∧ console (store m)
         = [[VStr "[elysia-background] Task failed:"; VError "Test sync error"]]
       ∧ trace m = [EvInvoke 3 []] ∧ unhandled m = [].
Proof. eexists. split; [vm_compute; reflexivity|]. vm_compute. auto. Qed.

Example sync_task_is_rejected :
  ∃ m, handle Demo.funcs None Demo.route_sync 10 Demo.boot = (Normal, Some m)
       ∧ console (store m) = [[default_tag; TaskKindError]]
       ∧ globals (store m) !! "taskComplete" = None
       ∧ trace m = [].
Proof. eexists. split; [vm_compute; reflexivity|]. vm_compute. auto. Qed.

(** ** One task *)

Section TaskFacts.

Variable funcs : FuncRef -> FuncObj.

Lemma run_async (t : BackgroundTask) (m : Machine) :
  isAsync t = true →
  BackgroundTask_run funcs t m
  = ((call (funcs (func t)) (args t) (store m)).1,
     {| store := effect funcs (store m) t;
        trace := trace m ++ [invocation t];
        unhandled := unhandled m |}).
Proof. intros Ht. unfold BackgroundTask_run. now rewrite Ht. Qed.

Lemma run_not_async (t : BackgroundTask) (m : Machine) :
  isAsync t = false →
  BackgroundTask_run funcs t m = (Rejected TaskKindError, m).
Proof. intros Ht. unfold BackgroundTask_run. now rewrite Ht. Qed.

(** A task that succeeded was async, and its callable was invoked once. *)
Lemma run_fulfilled_inv (t : BackgroundTask) (m m' : Machine) :
  BackgroundTask_run funcs t m = (Fulfilled, m') →
  isAsync t = true
  ∧ store m' = effect funcs (store m) t
  ∧ trace m' = trace m ++ [invocation t]
  ∧ unhandled m' = unhandled m.
Proof.
  destruct (isAsync t) eqn:Ht.
  - rewrite run_async by done. intros [= _ <-]. done.
  - rewrite run_not_async by done. discriminate.
Qed.

(** Whatever the outcome, a run changes the store only through the
    callable. *)
Lemma run_store (t : BackgroundTask) (m : Machine) :
  store (BackgroundTask_run funcs t m).2
  = if isAsync t then effect funcs (store m) t else store m.
Proof. unfold BackgroundTask_run. now destruct (isAsync t). Qed.

Lemma run_trace (t : BackgroundTask) (m : Machine) :
  trace (BackgroundTask_run funcs t m).2
  = trace m ++ (if isAsync t then [invocation t] else []).
Proof.
  unfold BackgroundTask_run. destruct (isAsync t); simpl; [done|].
  now rewrite app_nil_r.
Qed.

Lemma run_unhandled (t : BackgroundTask) (m : Machine) :
  unhandled (BackgroundTask_run funcs t m).2 = unhandled m.
Proof. unfold BackgroundTask_run. now destruct (isAsync t). Qed.

(** A property of the store that every callable keeps is kept by a run. *)
Lemma run_keeps (P : Store → Prop) (t : BackgroundTask) (m : Machine) :
  (∀ f x s, P s → P (call (funcs f) x s).2) →
  P (store m) → P (store (BackgroundTask_run funcs t m).2).
Proof.
  intros HP Hm. rewrite run_store. destruct (isAsync t); [|done].
  now apply HP.
Qed.

Lemma run_leaves (a : ArrRef) (t : BackgroundTask) (m : Machine) :
  leaves_array funcs a (func t) →
  tasks_at a (store (BackgroundTask_run funcs t m).2) = tasks_at a (store m).
Proof.
  intros Hf. rewrite run_store. destruct (isAsync t); [|done]. apply Hf.
Qed.

End TaskFacts.

(** ** The drain loop *)

Section LoopFacts.

Variable funcs : FuncRef -> FuncObj.

Lemma run_loop_unfold (fuel : nat) (a : ArrRef) (i : nat) (m : Machine) :
  run_loop funcs (S fuel) a i m
  = match tasks_at a (store m) !! i with
    | None => Some (Fulfilled, m)
    | Some task =>
        match BackgroundTask_run funcs task m with
        | (Fulfilled, m') => run_loop funcs fuel a (S i) m'
        | (o, m') => Some (o, m')
        end
    end.
Proof. reflexivity. Qed.

(** More fuel never changes a result. *)
Lemma run_loop_mono (fuel fuel' : nat) (a : ArrRef) (i : nat) (m : Machine)
    (r : Outcome * Machine) :
  run_loop funcs fuel a i m = Some r → fuel ≤ fuel' →
  run_loop funcs fuel' a i m = Some r.
Proof.
  revert fuel' i m. induction fuel as [|fuel IH]; intros fuel' i m; [done|].
  destruct fuel' as [|fuel']; [lia|]. rewrite !run_loop_unfold.
  destruct (tasks_at a (store m) !! i) as [t|]; [|done].
  destruct (BackgroundTask_run funcs t m) as [[] m']; try done.
  intros H ?. apply IH; [done|lia].
Qed.

(** The steps that [advance] counts are steps of the loop. *)
Lemma run_loop_advance (n fuel : nat) (a : ArrRef) (i : nat) (m m' : Machine) :
  advance funcs n a i m = Some m' →
  run_loop funcs (n + fuel) a i m = run_loop funcs fuel a (i + n) m'.
Proof.
  revert i m. induction n as [|n IH]; intros i m; simpl.
  - intros [= ->]. now rewrite Nat.add_0_r.
  - destruct (tasks_at a (store m) !! i) as [t|]; [|done].
    destruct (BackgroundTask_run funcs t m) as [[] m1]; try done.
    intros H. rewrite (IH _ _ H). f_equal. lia.
Qed.

Lemma advance_trace (n : nat) (a : ArrRef) (i : nat) (m m' : Machine) :
  advance funcs n a i m = Some m' → trace m `prefix_of` trace m'.
Proof.
  revert i m. induction n as [|n IH]; intros i m; simpl.
  - now intros [= ->].
  - destruct (tasks_at a (store m) !! i) as [t|]; [|done].
    destruct (BackgroundTask_run funcs t m) as [[] m1] eqn:Hr; try done.
    intros H. apply IH in H. apply run_fulfilled_inv in Hr as (_ & _ & Htr & _).
    etrans; [|exact H]. rewrite Htr. now apply prefix_app_r.
Qed.

(** A property of the store that every callable keeps is kept by a
    drain: the loop itself writes nothing. *)
Lemma run_loop_keeps (P : Store → Prop) (a : ArrRef) (fuel i : nat)
    (m m' : Machine) (o : Outcome) :
  (∀ f x s, P s → P (call (funcs f) x s).2) →
  P (store m) →
  run_loop funcs fuel a i m = Some (o, m') →
  P (store m').
Proof.
  intros HP. revert i m. induction fuel as [|fuel IH]; intros i m Hm; [done|].
  rewrite run_loop_unfold.
  destruct (tasks_at a (store m) !! i) as [t|]; [|now intros [= _ <-]].
  pose proof (run_keeps funcs P t m HP Hm) as Hk.
  destruct (BackgroundTask_run funcs t m) as [[] m1]; simpl in Hk.
  - now apply IH.
  - now intros [= _ <-].
  - now intros [= _ <-].
Qed.

(** A drain that ends has taken some number of successful steps and then
    either found no task at the next index or met a task that did not
    succeed. *)
Lemma run_loop_sound (fuel : nat) (a : ArrRef) (i : nat) (m m' : Machine)
    (o : Outcome) :
  run_loop funcs fuel a i m = Some (o, m') →
  ∃ n mn, advance funcs n a i m = Some mn
          ∧ match tasks_at a (store mn) !! (i + n) with
            | None => o = Fulfilled ∧ m' = mn
            | Some t => BackgroundTask_run funcs t mn = (o, m') ∧ o ≠ Fulfilled
            end.
Proof.
  revert i m. induction fuel as [|fuel IH]; intros i m; [done|].
  rewrite run_loop_unfold.
  destruct (tasks_at a (store m) !! i) as [t|] eqn:Hi.
  2:{ intros [= <- <-]. exists 0, m. now rewrite Nat.add_0_r, Hi. }
  destruct (BackgroundTask_run funcs t m) as [o1 m1] eqn:Hr.
  destruct o1.
  - intros H. apply IH in H as (n & mn & Hadv & Hend).
    exists (S n), mn. simpl. rewrite Hi, Hr. split; [done|].
    now rewrite <- Nat.add_succ_comm.
  - intros [= <- <-]. exists 0, m. now rewrite Nat.add_0_r, Hi.
  - intros [= <- <-]. exists 0, m. now rewrite Nat.add_0_r, Hi.
Qed.

End LoopFacts.

(** ** Draining a list, and the loop on an array that callables leave alone *)

Section ListFacts.

Variable funcs : FuncRef -> FuncObj.

Lemma run_tasks_cons (t : BackgroundTask) (l : list BackgroundTask) (m : Machine) :
  run_tasks funcs (t :: l) m
  = match BackgroundTask_run funcs t m with
    | (Fulfilled, m') => run_tasks funcs l m'
    | r => r
    end.
Proof. reflexivity. Qed.

(** When every task succeeds in its turn the list drains to the end: the
    callables were invoked once each in the order of the list, and the store
    is the one their effects build up from left to right. *)
Lemma run_tasks_succeed (l : list BackgroundTask) (m : Machine) :
  succeed_in_turn funcs l m →
  ∃ m', run_tasks funcs l m = (Fulfilled, m')
        ∧ store m' = foldl (effect funcs) (store m) l
        ∧ trace m' = trace m ++ map invocation l
        ∧ unhandled m' = unhandled m.
Proof.
  revert m. induction l as [|t l IH]; intros m; simpl.
  - intros _. exists m. now rewrite app_nil_r.
  - intros [H1 H2].
    destruct (BackgroundTask_run funcs t m) as [o m1] eqn:Hr. simpl in *. subst o.
    destruct (IH _ H2) as (m' & -> & Hs & Ht & Hu). exists m'.
    apply run_fulfilled_inv in Hr as (_ & Hs1 & Ht1 & Hu1).
    rewrite Hs, Ht, Hu, Hs1, Ht1, Hu1, <- app_assoc. done.
Qed.

Lemma run_tasks_fulfilled_inv (l : list BackgroundTask) (m m' : Machine) :
  run_tasks funcs l m = (Fulfilled, m') → succeed_in_turn funcs l m.
Proof.
  revert m. induction l as [|t l IH]; intros m; simpl; [done|].
  destruct (BackgroundTask_run funcs t m) as [[] m1]; try done.
  intros H. split; [done|]. now apply IH.
Qed.

(** Tasks after the first one that does not succeed play no part. *)
Lemma run_tasks_stop (pre post : list BackgroundTask) (t : BackgroundTask)
    (m m1 : Machine) (r : Outcome * Machine) :
  run_tasks funcs pre m = (Fulfilled, m1) →
  BackgroundTask_run funcs t m1 = r → r.1 ≠ Fulfilled →
  run_tasks funcs (pre ++ t :: post) m = r.
Proof.
  revert m. induction pre as [|p pre IH]; intros m; simpl.
  - intros [= ->] <- Hne.
    destruct (BackgroundTask_run funcs t m1) as [[] m2]; simpl in *; done.
  - destruct (BackgroundTask_run funcs p m) as [[] m2]; try done.
    apply IH.
Qed.

(** On an array that the callables of [pre] leave alone, the loop gets
    through [pre] as [advance] says, and the array is still the same. *)
Lemma advance_leaves (a : ArrRef) (pre : list BackgroundTask) :
  Forall (λ t, leaves_array funcs a (func t)) pre →
  ∀ (done rest : list BackgroundTask) (m m1 : Machine),
    tasks_at a (store m) = done ++ pre ++ rest →
    run_tasks funcs pre m = (Fulfilled, m1) →
    advance funcs (length pre) a (length done) m = Some m1
    ∧ tasks_at a (store m1) = done ++ pre ++ rest.
Proof.
  induction 1 as [|t pre Ht _ IH]; intros done rest m m1 Ha; simpl in *.
  - now intros [= ->].
  - rewrite Ha, list_lookup_middle by done.
    pose proof (run_leaves funcs a t m Ht) as Hl.
    destruct (BackgroundTask_run funcs t m) as [[] m2]; try done.
    simpl in Hl. intros Hr.
    destruct (IH (done ++ [t]) rest m2 m1) as [H1 H2]; [|done|].
    + now rewrite Hl, Ha, <- app_assoc.
    + rewrite length_app, Nat.add_1_r in H1. split; [done|].
      now rewrite H2, <- app_assoc.
Qed.

(** On an array that its callables leave alone, the loop does what
    draining the list does. *)
Lemma run_loop_leaves (a : ArrRef) (l : list BackgroundTask) :
  Forall (λ t, leaves_array funcs a (func t)) l →
  ∀ (done : list BackgroundTask) (m : Machine) (fuel : nat),
    tasks_at a (store m) = done ++ l → length l < fuel →
    run_loop funcs fuel a (length done) m = Some (run_tasks funcs l m).
Proof.
  induction 1 as [|t l Ht _ IH]; intros done m fuel Ha Hf;
    (destruct fuel as [|fuel]; [lia|]); rewrite run_loop_unfold, Ha.
  - rewrite app_nil_r, lookup_ge_None_2 by done. done.
  - simpl. rewrite list_lookup_middle by done.
    pose proof (run_leaves funcs a t m Ht) as Hl.
    destruct (BackgroundTask_run funcs t m) as [[] m2]; try done.
    simpl in Hl, Hf.
    specialize (IH (done ++ [t]) m2 fuel).
    rewrite length_app, Nat.add_1_r in IH. apply IH; [|lia].
    now rewrite Hl, Ha, <- app_assoc.
Qed.

Lemma run_tasks_leaves (a : ArrRef) (l : list BackgroundTask) :
  Forall (λ t, leaves_array funcs a (func t)) l →
  ∀ m, tasks_at a (store (run_tasks funcs l m).2) = tasks_at a (store m).
Proof.
  induction 1 as [|t l Ht _ IH]; intros m; [done|]. rewrite run_tasks_cons.
  pose proof (run_leaves funcs a t m Ht) as Hl.
  destruct (BackgroundTask_run funcs t m) as [[] m2]; try done.
  simpl in Hl. now rewrite IH.
Qed.

End ListFacts.

(** ** What a drain adds to the trace *)

Section TraceFacts.

Variable funcs : FuncRef -> FuncObj.

(** A drain records invocations of callables and nothing else, and it
    leaves the list of unhandled rejections as it was. *)
Lemma run_loop_trace (fuel : nat) (a : ArrRef) (i : nat) (m m' : Machine)
    (o : Outcome) :
  run_loop funcs fuel a i m = Some (o, m') →
  (∃ l, trace m' = trace m ++ map invocation l) ∧ unhandled m' = unhandled m.
Proof.
  revert i m. induction fuel as [|fuel IH]; intros i m; [done|].
  rewrite run_loop_unfold.
  destruct (tasks_at a (store m) !! i) as [t|].
  2:{ intros [= _ <-]. split; [|done]. exists []. now rewrite app_nil_r. }
  pose proof (run_trace funcs t m) as Ht.
  pose proof (run_unhandled funcs t m) as Hu.
  assert (∃ l, trace (BackgroundTask_run funcs t m).2 = trace m ++ map invocation l)
    as [l1 Hl1].
  { rewrite Ht. destruct (isAsync t); [now exists [t]|now exists []]. }
  destruct (BackgroundTask_run funcs t m) as [[] m1]; simpl in *.
  - intros H. apply IH in H as [[l Hl] Hu']. split; [|congruence].
    exists (l1 ++ l). now rewrite Hl, Hl1, map_app, app_assoc.
  - intros [= _ <-]. split; [now exists l1|done].
  - intros [= _ <-]. split; [now exists l1|done].
Qed.

Lemma run_loop_trace_prefix (fuel : nat) (a : ArrRef) (i : nat) (m m' : Machine)
    (o : Outcome) :
  run_loop funcs fuel a i m = Some (o, m') → trace m `prefix_of` trace m'.
Proof.
  intros H. apply run_loop_trace in H as [[l ->] _]. now apply prefix_app_r.
Qed.

End TraceFacts.

(** Only the callables' behaviour matters to a run, not their constructor
    names as they are when the run happens. *)
Lemma run_ext (funcs funcs' : FuncRef → FuncObj) (t : BackgroundTask) (m : Machine) :
  (∀ f, call (funcs' f) = call (funcs f)) →
  BackgroundTask_run funcs' t m = BackgroundTask_run funcs t m.
Proof. intros H. unfold BackgroundTask_run. now rewrite H. Qed.

Lemma run_loop_ext (funcs funcs' : FuncRef → FuncObj) (fuel : nat) (a : ArrRef)
    (i : nat) (m : Machine) :
  (∀ f, call (funcs' f) = call (funcs f)) →
  run_loop funcs' fuel a i m = run_loop funcs fuel a i m.
Proof.
  intros H. revert i m. induction fuel as [|fuel IH]; intros i m; [done|].
  rewrite !run_loop_unfold. destruct (tasks_at a (store m) !! i) as [t|]; [|done].
  rewrite (run_ext funcs funcs') by done.
  destruct (BackgroundTask_run funcs t m) as [[] m1]; [apply IH|done|done].
Qed.

(** ** The claims *)

Section Claims.

Variable funcs : FuncRef -> FuncObj.

(** C1, amended. On a queue whose callables leave its array alone, [run]
    does what draining the list of its tasks does: the tasks one after the
    other in insertion order, each run to its end before the next starts.
    When every task succeeds in its turn, [run] is fulfilled (with no
    value), every callable has been invoked exactly once in insertion
    order, and the store is the one that the callables' effects build up in
    that order. A queue with no task is drained at once, whatever the
    callables: [run] is fulfilled and the machine is unchanged. Whatever the
    callables do, a drain that ends has gone through the array index by
    index from 0: each task it found was run to its end in the machine that
    the task before it left, and the drain ended either at an index with no
    task, fulfilled, or at the first task that did not succeed. *)
Theorem BackgroundTasks_run_in_order (q : BackgroundTasks) (m : Machine) :
  (∀ fuel o m', BackgroundTasks_run funcs fuel q m = Some (o, m') →
     ∃ n mn, advance funcs n (tasks q) 0 m = Some mn
             ∧ match tasks_at (tasks q) (store mn) !! n with
               | None => o = Fulfilled ∧ m' = mn
               | Some t => BackgroundTask_run funcs t mn = (o, m') ∧ o ≠ Fulfilled
               end)
  ∧ (∀ l, tasks_at (tasks q) (store m) = l →
       Forall (λ t, leaves_array funcs (tasks q) (func t)) l →
       (∀ fuel, length l < fuel →
          BackgroundTasks_run funcs fuel q m = Some (run_tasks funcs l m))
       ∧ (succeed_in_turn funcs l m →
          ∀ fuel, length l < fuel →
            ∃ m', BackgroundTasks_run funcs fuel q m = Some (Fulfilled, m')
                  ∧ store m' = foldl (effect funcs) (store m) l
                  ∧ trace m' = trace m ++ map invocation l
                  ∧ unhandled m' = unhandled m))
  ∧ (tasks_at (tasks q) (store m) = [] →
     ∀ fuel, BackgroundTasks_run funcs (S fuel) q m = Some (Fulfilled, m)).
Proof.
  split; [|split].
  - intros fuel o m' Hr. now apply run_loop_sound in Hr.
  - intros l Ha Hl.
    assert (∀ fuel, length l < fuel →
              BackgroundTasks_run funcs fuel q m = Some (run_tasks funcs l m)) as Hrun.
    { intros fuel Hf. now apply (run_loop_leaves funcs (tasks q) l Hl [] m fuel). }
    split; [exact Hrun|].
    intros Hs fuel Hf. destruct (run_tasks_succeed funcs l m Hs) as (m' & Hr & H).
    exists m'. rewrite Hrun, Hr by done. done.
  - intros Ha fuel. unfold BackgroundTasks_run. rewrite run_loop_unfold, Ha. done.
Qed.

(** C2. Once the tasks at the indices below [j] have each succeeded, a task
    [t] at index [j] that is rejected with [e] ends the drain: [run] is
    rejected with [e] itself, in the machine that the run of [t] left, which
    differs from the machine before [t] by the call of [t] alone. On a queue
    whose first tasks [pre] leave its array alone and succeed in their turn,
    with [t] next and [post] behind it: the trace holds the invocations of
    [pre] and of [t] and no other, and the store is the one left by [t], so
    no task of [post] was started. *)
Theorem BackgroundTasks_run_fail_fast (q : BackgroundTasks) (m : Machine) :
  (∀ j mj t e m2,
     advance funcs j (tasks q) 0 m = Some mj →
     tasks_at (tasks q) (store mj) !! j = Some t →
     BackgroundTask_run funcs t mj = (Rejected e, m2) →
     (∀ fuel, j < fuel → BackgroundTasks_run funcs fuel q m = Some (Rejected e, m2))
     ∧ trace m2 = trace mj ++ (if isAsync t then [invocation t] else [])
     ∧ store m2 = (if isAsync t then effect funcs (store mj) t else store mj)
     ∧ unhandled m2 = unhandled mj)
  ∧ (∀ pre t post e m1 m2,
       tasks_at (tasks q) (store m) = pre ++ t :: post →
       Forall (λ p, leaves_array funcs (tasks q) (func p)) pre →
       run_tasks funcs pre m = (Fulfilled, m1) →
       BackgroundTask_run funcs t m1 = (Rejected e, m2) →
       ∀ fuel, length pre < fuel →
         BackgroundTasks_run funcs fuel q m = Some (Rejected e, m2)
         ∧ trace m2
           = trace m ++ map invocation pre ++ (if isAsync t then [invocation t] else [])
         ∧ store m2
           = (if isAsync t then effect funcs (foldl (effect funcs) (store m) pre) t
              else foldl (effect funcs) (store m) pre)
         ∧ unhandled m2 = unhandled m).
Proof.
  assert (∀ j mj t e m2,
     advance funcs j (tasks q) 0 m = Some mj →
     tasks_at (tasks q) (store mj) !! j = Some t →
     BackgroundTask_run funcs t mj = (Rejected e, m2) →
     (∀ fuel, j < fuel → BackgroundTasks_run funcs fuel q m = Some (Rejected e, m2))
     ∧ trace m2 = trace mj ++ (if isAsync t then [invocation t] else [])
     ∧ store m2 = (if isAsync t then effect funcs (store mj) t else store mj)
     ∧ unhandled m2 = unhandled mj) as Hgen.
  { intros j mj t e m2 Hadv Hj Ht. split.
    - intros fuel Hf. unfold BackgroundTasks_run.
      replace fuel with (j + S (fuel - S j)) by lia.
      rewrite (run_loop_advance funcs _ _ _ _ _ _ Hadv), run_loop_unfold. simpl.
      now rewrite Hj, Ht.
    - pose proof (run_trace funcs t mj) as Htr.
      pose proof (run_store funcs t mj) as Hst.
      pose proof (run_unhandled funcs t mj) as Hun.
      rewrite Ht in Htr, Hst, Hun. done. }
  split; [exact Hgen|].
  intros pre t post e m1 m2 Ha Hpre Hr Ht fuel Hf.
  destruct (advance_leaves funcs (tasks q) pre Hpre [] (t :: post) m m1 Ha Hr)
    as [Hadv Ha1].
  destruct (run_tasks_succeed funcs pre m) as (m1' & Hr' & Hs1 & Ht1 & Hu1).
  { eapply run_tasks_fulfilled_inv; eauto. }
  rewrite Hr in Hr'. injection Hr' as <-.
  destruct (Hgen (length pre) m1 t e m2 Hadv) as (Hrun & Htr & Hst & Hun); [|done|].
  { rewrite Ha1. now apply list_lookup_middle. }
  split; [now apply Hrun|].
  rewrite Htr, Hst, Hun, Ht1, Hs1, Hu1, <- app_assoc. done.
Qed.

(** C3. A task whose flag [isAsync] is false is rejected by [run] with
    the error for synchronous functions, and the machine is unchanged: the
    callable was not invoked and nothing of what it would do happened.
    Draining a queue that starts with such a task is rejected with that
    error in the same way. *)
Theorem BackgroundTask_run_rejects_sync (t : BackgroundTask) (m : Machine) :
  isAsync t = false →
  BackgroundTask_run funcs t m = (Rejected TaskKindError, m)
  ∧ ∀ q fuel, tasks_at (tasks q) (store m) !! 0 = Some t →
      BackgroundTasks_run funcs (S fuel) q m = Some (Rejected TaskKindError, m).
Proof.
  intros Ht. split; [now apply run_not_async|].
  intros q fuel Hq. unfold BackgroundTasks_run.
  now rewrite run_loop_unfold, Hq, run_not_async.
Qed.

(** C4. When the drain is rejected with [e], [e] is the value with which
    the run of one task of the queue was rejected, the hook still returns
    normally, and the chain it left behind hands [e] to one sink. With a
    configured [onError], the handler is called once, with [e] itself, and
    the store is the one the handler left: the hook writes nothing to the
    console; the list of unhandled rejections grows only by what the handler
    itself throws. With no [onError], no handler is called and exactly one
    line is added at the end of the console, holding the tag
    "[elysia-background] Task failed:" and then [e]; arrays and variables
    are untouched and no rejection is left unhandled. Before that, the drain
    has recorded invocations of callables only. *)
Theorem onAfterResponse_routes_failure (options : option BackgroundOptions)
    (fuel : nat) (q : BackgroundTasks) (m m1 : Machine) (e : Value) :
  BackgroundTasks_run funcs fuel q m = Some (Rejected e, m1) →
  (∃ n mn t, advance funcs n (tasks q) 0 m = Some mn
             ∧ tasks_at (tasks q) (store mn) !! n = Some t
             ∧ BackgroundTask_run funcs t mn = (Rejected e, m1))
  ∧ ∃ m2 l,
      onAfterResponse funcs options fuel q m = (Normal, Some m2)
      ∧ trace m1 = trace m ++ map invocation l
      ∧ match options ≫= onError with
        | Some handler =>
            trace m2 = trace m1 ++ [EvOnError e]
            ∧ store m2 = (handler e (store m1)).2
            ∧ unhandled m2
              = unhandled m ++ match (handler e (store m1)).1 with
                               | Normal => []
                               | Throw e' => [e']
                               end
        | None =>
            trace m2 = trace m1
            ∧ console (store m2)
              = console (store m1) ++ [[VStr "[elysia-background] Task failed:"; e]]
            ∧ arrays (store m2) = arrays (store m1)
            ∧ globals (store m2) = globals (store m1)
            ∧ unhandled m2 = unhandled m
        end.
Proof.
  intros Hr. split.
  - destruct (run_loop_sound funcs _ _ _ _ _ _ Hr) as (n & mn & Hadv & Hend).
    exists n, mn. simpl in Hend.
    destruct (tasks_at (tasks q) (store mn) !! n) as [t|]; [|now destruct Hend].
    exists t. now destruct Hend.
  - unfold onAfterResponse, detached. rewrite Hr.
    apply run_loop_trace in Hr as [[l Hl] Hu].
    exists (catch_callback options e m1), l. split; [done|]. split; [done|].
    unfold catch_callback. destruct (options ≫= onError) as [handler|]; simpl.
    + split; [done|]. split; [done|]. rewrite Hu.
      destruct (handler e (store m1)).1; [now rewrite app_nil_r|done].
    + now rewrite Hu.
Qed.

(** C5. A task whose flag [isAsync] is true invokes its callable once,
    with the arguments it holds, and the outcome of [run] is the outcome of
    that call: fulfilled when the call is fulfilled, rejected with the very
    value the call was rejected with, never settled when the call never
    settles. The store is the one the call left. For a task built by the
    constructor from an async function, the callable and the arguments are
    those given to the constructor. *)
Theorem BackgroundTask_run_awaits_callable (t : BackgroundTask) (m : Machine) :
  isAsync t = true →
  BackgroundTask_run funcs t m
  = ((call (funcs (func t)) (args t) (store m)).1,
     {| store := (call (funcs (func t)) (args t) (store m)).2;
        trace := trace m ++ [EvInvoke (func t) (args t)];
        unhandled := unhandled m |})
  ∧ ∀ f a, t = new_BackgroundTask funcs f a →
      BackgroundTask_run funcs t m
      = ((call (funcs f) a (store m)).1,
         {| store := (call (funcs f) a (store m)).2;
            trace := trace m ++ [EvInvoke f a];
            unhandled := unhandled m |}).
Proof.
  intros Ht. split; [now apply run_async|].
  intros f a ->. now rewrite run_async.
Qed.

(** C6. [addTask] builds a task from the callable and the arguments it
    is given and pushes it at the end of the queue's array: the new last
    element holds that callable as [func], those arguments as [args], and as
    [isAsync] whether the name of the callable's constructor is
    "AsyncFunction"; the length grows by one, every task that was in the
    array is still at its index, and nothing else of the store changes
    (other arrays, variables, console). It is a total function of the store:
    it calls no callable and has no outcome of its own. *)
Theorem addTask_appends (q : BackgroundTasks) (f : FuncRef) (a : list Value)
    (s : Store) :
  tasks_at (tasks q) (addTask funcs q f a s)
  = tasks_at (tasks q) s
    ++ [{| func := f; args := a;
           isAsync := String.eqb (constructor_name (funcs f)) "AsyncFunction" |}]
  ∧ length (tasks_at (tasks q) (addTask funcs q f a s))
    = S (length (tasks_at (tasks q) s))
  ∧ (∀ i t, tasks_at (tasks q) s !! i = Some t →
            tasks_at (tasks q) (addTask funcs q f a s) !! i = Some t)
  ∧ (∀ b, b ≠ tasks q → tasks_at b (addTask funcs q f a s) = tasks_at b s)
  ∧ globals (addTask funcs q f a s) = globals s
  ∧ console (addTask funcs q f a s) = console s.
Proof.
  assert (tasks_at (tasks q) (addTask funcs q f a s)
          = tasks_at (tasks q) s
            ++ [{| func := f; args := a;
                   isAsync := String.eqb (constructor_name (funcs f)) "AsyncFunction" |}])
    as Hq.
  { unfold addTask, set_tasks, tasks_at. simpl. now rewrite lookup_insert_eq. }
  rewrite Hq. repeat split.
  - rewrite length_app. simpl. lia.
  - intros i t Hi. now apply lookup_app_l_Some.
  - intros b Hb. unfold addTask, set_tasks, tasks_at. simpl.
    now rewrite lookup_insert_ne.
Qed.

End Claims.

(** ** Arrays that grow while they are drained *)

Section LiveArray.

Variable funcs : FuncRef -> FuncObj.

Lemma run_pushes (a : ArrRef) (t : BackgroundTask) (m : Machine) :
  (∀ f, only_pushes funcs a f) →
  tasks_at a (store m) `prefix_of` tasks_at a (store (BackgroundTask_run funcs t m).2).
Proof.
  intros H. rewrite run_store. destruct (isAsync t); [apply H|done].
Qed.

(** With callables that at most push, a drain that ends has drained a
    stretch of the array as it is at the end, from where it started. When
    it is fulfilled the stretch reaches the end of the array. *)
Lemma run_loop_pushes (a : ArrRef) :
  (∀ f, only_pushes funcs a f) →
  ∀ (fuel i : nat) (m m' : Machine) (o : Outcome),
    run_loop funcs fuel a i m = Some (o, m') →
    tasks_at a (store m) `prefix_of` tasks_at a (store m')
    ∧ ∃ k, run_tasks funcs (take k (drop i (tasks_at a (store m')))) m = (o, m')
           ∧ (o = Fulfilled → length (tasks_at a (store m')) ≤ i + k).
Proof.
  intros Hp. induction fuel as [|fuel IH]; intros i m m' o; [done|].
  rewrite run_loop_unfold.
  destruct (tasks_at a (store m) !! i) as [t|] eqn:Hi.
  2:{ intros [= <- <-]. split; [done|]. exists 0. split; [done|].
      intros _. apply lookup_ge_None_1 in Hi. lia. }
  pose proof (run_pushes a t m Hp) as Hpre.
  destruct (BackgroundTask_run funcs t m) as [o1 m1] eqn:Hr. simpl in Hpre.
  assert (∀ final, tasks_at a (store m1) `prefix_of` final →
                   drop i final = t :: drop (S i) final) as Hdrop.
  { intros final Hf. apply drop_S.
    eapply prefix_lookup_Some; [|exact Hf]. eapply prefix_lookup_Some; eauto. }
  destruct o1.
  - intros H. apply IH in H as (Hpre' & k & Hk & Hlen).
    split; [by etrans|]. exists (S k). rewrite (Hdrop _ Hpre'). simpl.
    rewrite Hr. split; [done|]. intros Ho. specialize (Hlen Ho). lia.
  - intros [= <- <-]. split; [done|]. exists 1.
    rewrite (Hdrop _ (reflexivity _)). simpl. now rewrite Hr.
  - intros [= <- <-]. split; [done|]. exists 1.
    rewrite (Hdrop _ (reflexivity _)). simpl. now rewrite Hr.
Qed.

End LiveArray.

(** ** Steps of the drain, counted *)

Section AdvanceFacts.

Variable funcs : FuncRef -> FuncObj.

Lemma advance_add (n1 n2 : nat) (a : ArrRef) (i : nat) (m : Machine) :
  advance funcs (n1 + n2) a i m
  = match advance funcs n1 a i m with
    | Some m' => advance funcs n2 a (i + n1) m'
    | None => None
    end.
Proof.
  revert i m. induction n1 as [|n1 IH]; intros i m; simpl.
  - now rewrite Nat.add_0_r.
  - destruct (tasks_at a (store m) !! i) as [t|]; [|done].
    destruct (BackgroundTask_run funcs t m) as [[] m1]; try done.
    rewrite IH. now rewrite <- Nat.add_succ_comm.
Qed.

(** The steps up to [n] include the steps up to any [j] below [n]. *)
Lemma advance_le (j n : nat) (a : ArrRef) (i : nat) (m m' : Machine) :
  j ≤ n → advance funcs n a i m = Some m' →
  ∃ mj, advance funcs j a i m = Some mj
        ∧ advance funcs (n - j) a (i + j) mj = Some m'.
Proof.
  intros Hj H. replace n with (j + (n - j)) in H by lia.
  rewrite advance_add in H.
  destruct (advance funcs j a i m) as [mj|]; [|done]. now exists mj.
Qed.

Lemma advance_pushes (a : ArrRef) :
  (∀ f, only_pushes funcs a f) →
  ∀ (n i : nat) (m m' : Machine),
    advance funcs n a i m = Some m' →
    tasks_at a (store m) `prefix_of` tasks_at a (store m').
Proof.
  intros Hp. induction n as [|n IH]; intros i m m'; simpl.
  - now intros [= ->].
  - destruct (tasks_at a (store m) !! i) as [t|]; [|done].
    pose proof (run_pushes funcs a t m Hp) as Hpre.
    destruct (BackgroundTask_run funcs t m) as [[] m1]; try done.
    intros H. etrans; [exact Hpre|]. now apply (IH (S i)).
Qed.

(** With callables that at most push, the steps taken have invoked the
    callables of the tasks they went through, as they stand in any later
    array. *)
Lemma advance_trace_take (a : ArrRef) :
  (∀ f, only_pushes funcs a f) →
  ∀ (n i : nat) (m m' : Machine) (final : list BackgroundTask),
    advance funcs n a i m = Some m' →
    tasks_at a (store m') `prefix_of` final →
    trace m' = trace m ++ map invocation (take n (drop i final)).
Proof.
  intros Hp. induction n as [|n IH]; intros i m m' final; simpl.
  - intros [= ->] _. now rewrite app_nil_r.
  - destruct (tasks_at a (store m) !! i) as [t|] eqn:Hi; [|done].
    pose proof (run_pushes funcs a t m Hp) as Hpre.
    destruct (BackgroundTask_run funcs t m) as [[] m1] eqn:Hr; try done.
    simpl in Hpre. intros Hadv Hfinal.
    apply run_fulfilled_inv in Hr as (_ & _ & Htr & _).
    rewrite (IH _ _ _ _ Hadv Hfinal), Htr, <- app_assoc.
    assert (final !! i = Some t) as Hfi.
    { eapply prefix_lookup_Some; [|exact Hfinal].
      eapply prefix_lookup_Some; [|exact (advance_pushes a Hp _ _ _ _ Hadv)].
      eapply prefix_lookup_Some; eauto. }
    now rewrite (drop_S _ _ _ Hfi).
Qed.

End AdvanceFacts.

Section MoreClaims.

Variable funcs : FuncRef -> FuncObj.

(** C7, amended. The constructor stores the callable and the arguments
    as given and sets the flag once: the flag is true exactly when the name
    of the callable's constructor is "AsyncFunction", which is what the flag
    records (not whether the callable can suspend). A run reads the stored
    flag: a program whose functions behave alike but carry other constructor
    names runs every task, and drains every queue, to the same result.
    [addTask] leaves every task already in the array as it is, and a drain
    keeps every property of an array that the callables keep: the library
    writes to no field of a task after construction. *)
Theorem task_fields_fixed_at_construction :
  (∀ f a, func (new_BackgroundTask funcs f a) = f
          ∧ args (new_BackgroundTask funcs f a) = a
          ∧ (isAsync (new_BackgroundTask funcs f a) = true
             ↔ constructor_name (funcs f) = "AsyncFunction"))
  ∧ (∀ funcs' t m, (∀ f, call (funcs' f) = call (funcs f)) →
       BackgroundTask_run funcs' t m = BackgroundTask_run funcs t m)
  ∧ (∀ funcs' fuel q m, (∀ f, call (funcs' f) = call (funcs f)) →
       BackgroundTasks_run funcs' fuel q m = BackgroundTasks_run funcs fuel q m)
  ∧ (∀ q f a s i t, tasks_at (tasks q) s !! i = Some t →
       tasks_at (tasks q) (addTask funcs q f a s) !! i = Some t)
  ∧ (∀ (P : list BackgroundTask → Prop) a fuel q m o m',
       (∀ f x s, P (tasks_at a s) → P (tasks_at a (call (funcs f) x s).2)) →
       P (tasks_at a (store m)) →
       BackgroundTasks_run funcs fuel q m = Some (o, m') →
       P (tasks_at a (store m'))).
Proof.
  split.
  { intros f a. split; [done|]. split; [done|]. simpl. unfold isAsyncFunction.
    apply String.eqb_eq. }
  split; [intros; now apply run_ext|].
  split; [intros; now apply run_loop_ext|]. split.
  - intros q f a s i t Hi. unfold addTask, set_tasks, tasks_at at 1. simpl.
    rewrite lookup_insert_eq. simpl. now apply lookup_app_l_Some.
  - intros P a fuel q m o m' HP Hm Hr.
    now apply (run_loop_keeps funcs (λ s, P (tasks_at a s)) _ _ _ _ _ _ HP Hm Hr).
Qed.

(** C9, amended. With callables that at most push on the queue's array:
    let a task [t] sit at index [j] of the array once the drain has run its
    first [i ≤ j] tasks with success (so [t] was there at the start or was
    pushed by one of them; for an index that did not exist at the start it
    was pushed while the drain was under way). When the tasks before [t]
    each succeed, the loop finds [t] at index [j], has by then invoked the
    callables of exactly the tasks before it, in the order of the array,
    and runs [t] next, in the machine those tasks left; every drain that
    ends has run [t]. When one of the tasks before [t] does not succeed
    (it is rejected or never settles), every drain that ends is not
    fulfilled and has invoked the callables of some first [k ≤ j] tasks of
    the array only: [t], still in the array at index [j], is not run. *)
Theorem pushed_task_runs_after_successes (q : BackgroundTasks) (m mi : Machine)
    (i j : nat) (t : BackgroundTask) :
  (∀ f, only_pushes funcs (tasks q) f) →
  i ≤ j →
  advance funcs i (tasks q) 0 m = Some mi →
  tasks_at (tasks q) (store mi) !! j = Some t →
  (∀ mj, advance funcs j (tasks q) 0 m = Some mj →
     tasks_at (tasks q) (store mj) !! j = Some t
     ∧ trace mj = trace m ++ map invocation (take j (tasks_at (tasks q) (store mj)))
     ∧ (∀ fuel, BackgroundTasks_run funcs (j + S fuel) q m
                = match BackgroundTask_run funcs t mj with
                  | (Fulfilled, m') => run_loop funcs fuel (tasks q) (S j) m'
                  | r => Some r
                  end)
     ∧ (∀ fuel o m', BackgroundTasks_run funcs fuel q m = Some (o, m') →
          ∃ rest, trace m'
                  = trace mj ++ (if isAsync t then [invocation t] else []) ++ rest))
  ∧ (advance funcs j (tasks q) 0 m = None →
     ∀ fuel o m', BackgroundTasks_run funcs fuel q m = Some (o, m') →
       o ≠ Fulfilled
       ∧ tasks_at (tasks q) (store m') !! j = Some t
       ∧ ∃ k, k ≤ j
              ∧ trace m'
                = trace m ++ map invocation (take k (tasks_at (tasks q) (store m')))).
Proof.
  intros Hp Hij Hi Ht. split.
  - intros mj Hadv.
    destruct (advance_le funcs i j _ _ _ _ Hij Hadv) as (mi' & Hi' & Hrest).
    rewrite Hi in Hi'. injection Hi' as <-.
    assert (tasks_at (tasks q) (store mj) !! j = Some t) as Hj.
    { eapply prefix_lookup_Some; [exact Ht|].
      exact (advance_pushes funcs (tasks q) Hp _ _ _ _ Hrest). }
    split; [exact Hj|]. split.
    { rewrite (advance_trace_take funcs (tasks q) Hp _ _ _ _ _ Hadv (reflexivity _)).
      now rewrite drop_0. }
    assert (∀ fuel, BackgroundTasks_run funcs (j + S fuel) q m
             = match BackgroundTask_run funcs t mj with
               | (Fulfilled, m') => run_loop funcs fuel (tasks q) (S j) m'
               | r => Some r
               end) as Hstep.
    { intros fuel. unfold BackgroundTasks_run.
      rewrite (run_loop_advance funcs _ _ _ _ _ _ Hadv), run_loop_unfold. simpl.
      rewrite Hj. now destruct (BackgroundTask_run funcs t mj) as [[] m1]. }
    split; [exact Hstep|]. intros fuel o m' Hr.
    apply (run_loop_mono funcs fuel (j + S fuel)) in Hr; [|lia].
    unfold BackgroundTasks_run in Hstep. rewrite Hstep in Hr.
    pose proof (run_trace funcs t mj) as Htr.
    destruct (BackgroundTask_run funcs t mj) as [[] m2]; simpl in Htr.
    + apply run_loop_trace_prefix in Hr as [rest Hrest']. exists rest.
      now rewrite Hrest', Htr, <- app_assoc.
    + injection Hr as _ <-. exists []. now rewrite Htr, app_nil_r.
    + injection Hr as _ <-. exists []. now rewrite Htr, app_nil_r.
  - intros Hnone fuel o m' Hr.
    destruct (run_loop_sound funcs _ _ _ _ _ _ Hr) as (n & mn & Hadv & Hend).
    simpl in Hend.
    assert (n < j) as Hnj.
    { destruct (decide (n < j)) as [|Hge]; [done|].
      destruct (advance_le funcs j n _ _ _ _ ltac:(lia) Hadv) as (mj & Hj & _).
      congruence. }
    assert (i ≤ n) as Hin.
    { destruct (decide (i ≤ n)) as [|Hlt]; [done|]. exfalso.
      destruct (advance_le funcs n i _ _ _ _ ltac:(lia) Hi) as (mn' & Hn' & Hmore).
      rewrite Hadv in Hn'. injection Hn' as <-.
      replace (i - n) with (S (i - S n)) in Hmore by lia. simpl in Hmore.
      destruct (tasks_at (tasks q) (store mn) !! n) as [tn|]; [|done].
      destruct Hend as [Hrun Ho]. rewrite Hrun in Hmore.
      now destruct o. }
    destruct (advance_le funcs i n _ _ _ _ Hin Hadv) as (mi' & Hi' & Hrest).
    rewrite Hi in Hi'. injection Hi' as <-.
    assert (tasks_at (tasks q) (store mn) !! j = Some t) as Hj.
    { eapply prefix_lookup_Some; [exact Ht|].
      exact (advance_pushes funcs (tasks q) Hp _ _ _ _ Hrest). }
    destruct (tasks_at (tasks q) (store mn) !! n) as [tn|] eqn:Hn.
    2:{ apply lookup_ge_None_1 in Hn. apply lookup_lt_Some in Hj. lia. }
    destruct Hend as [Hrun Ho]. split; [exact Ho|].
    pose proof (run_pushes funcs (tasks q) tn mn Hp) as Hpre.
    pose proof (run_trace funcs tn mn) as Htr.
    rewrite Hrun in Hpre, Htr. simpl in Hpre, Htr.
    split; [eapply prefix_lookup_Some; eauto|].
    pose proof (advance_trace_take funcs (tasks q) Hp _ _ _ _ _ Hadv Hpre) as Hmn.
    rewrite drop_0 in Hmn. rewrite Htr, Hmn.
    destruct (isAsync tn).
    + exists (S n). split; [lia|].
      rewrite (take_S_r _ _ tn), map_app, <- app_assoc; [done|].
      eapply prefix_lookup_Some; eauto.
    + exists n. split; [lia|]. now rewrite app_nil_r.
Qed.


End MoreClaims.

(** ** The claims at concrete inputs *)

Lemma increment_leaves (a : ArrRef) : leaves_array Demo.funcs a 0.
Proof. intros x s. reflexivity. Qed.

Lemma demo_only_pushes (f : FuncRef) : only_pushes Demo.funcs 0 f.
Proof.
  intros x s. do 5 (destruct f as [|f]; [reflexivity|]).
  destruct f as [|f]; [|reflexivity].
  simpl. rewrite tasks_at_set_tasks. now apply prefix_app_r.
Qed.

Lemma BackgroundTasks_run_in_order_witness :
  succeed_in_turn Demo.funcs Demo.three_increments (Demo.with_queue Demo.three_increments)
  ∧ ∃ m', BackgroundTasks_run Demo.funcs 4 Demo.the_queue
            (Demo.with_queue Demo.three_increments) = Some (Fulfilled, m')
          ∧ trace m' = [EvInvoke 0 [VNum 1]; EvInvoke 0 [VNum 2]; EvInvoke 0 [VNum 3]]
          ∧ Demo.counter (store m') = 6%Z.
Proof.
  assert (succeed_in_turn Demo.funcs Demo.three_increments
            (Demo.with_queue Demo.three_increments)) as Hs
    by (vm_compute; auto).
  split; [exact Hs|].
  destruct (BackgroundTasks_run_in_order Demo.funcs Demo.the_queue
              (Demo.with_queue Demo.three_increments)) as (_ & Hlist & _).
  destruct (Hlist Demo.three_increments) as (_ & Hall).
  - reflexivity.
  - repeat (constructor; [apply increment_leaves|]). constructor.
  - destruct (Hall Hs 4) as (m' & Hr & Hst & Htr & _); [simpl; lia|].
    exists m'. split; [exact Hr|]. rewrite Htr, Hst. split; reflexivity.
Defined.

Lemma BackgroundTasks_run_fail_fast_witness :
  ∃ m2, BackgroundTasks_run Demo.funcs 5 Demo.the_queue
          (Demo.with_queue Demo.fail_in_the_middle)
        = Some (Rejected (VError "Test sync error"), m2)
        ∧ trace m2 = [EvInvoke 0 [VNum 5]; EvInvoke 3 []]
        ∧ Demo.counter (store m2) = 5%Z.
Proof.
  set (m := Demo.with_queue Demo.fail_in_the_middle).
  set (m1 := (run_tasks Demo.funcs [Demo.task 0 [VNum 5]] m).2).
  set (m2 := (BackgroundTask_run Demo.funcs (Demo.task 3 []) m1).2).
  exists m2.
  destruct (BackgroundTasks_run_fail_fast Demo.funcs Demo.the_queue m) as [_ Hlist].
  destruct (Hlist [Demo.task 0 [VNum 5]] (Demo.task 3 []) [Demo.task 0 [VNum 7]]
              (VError "Test sync error") m1 m2) with (fuel := 5)
    as (Hr & Htr & Hst & _).
  - reflexivity.
  - repeat (constructor; [apply increment_leaves|]). constructor.
  - reflexivity.
  - reflexivity.
  - simpl; lia.
  - split; [exact Hr|]. split; [rewrite Htr|rewrite Hst]; reflexivity.
Defined.

Lemma BackgroundTask_run_rejects_sync_witness :
  isAsync (Demo.task 2 []) = false
  ∧ BackgroundTask_run Demo.funcs (Demo.task 2 []) (Demo.with_queue [Demo.task 2 []])
    = (Rejected TaskKindError, Demo.with_queue [Demo.task 2 []])
  ∧ BackgroundTasks_run Demo.funcs 1 Demo.the_queue (Demo.with_queue [Demo.task 2 []])
    = Some (Rejected TaskKindError, Demo.with_queue [Demo.task 2 []]).
Proof.
  split; [reflexivity|].
  destruct (BackgroundTask_run_rejects_sync Demo.funcs (Demo.task 2 [])
              (Demo.with_queue [Demo.task 2 []])) as [H1 H2]; [reflexivity|].
  split; [exact H1|]. apply H2. reflexivity.
Defined.

Lemma onAfterResponse_routes_failure_witness :
  (∃ m2, onAfterResponse Demo.funcs (Some Demo.capture) 5 Demo.the_queue
           (Demo.with_queue [Demo.task 3 []]) = (Normal, Some m2)
         ∧ trace m2 = [EvInvoke 3 []; EvOnError (VError "Test sync error")]
         ∧ globals (store m2) !! "capturedError" = Some (VError "Test sync error")
         ∧ console (store m2) = []
         ∧ unhandled m2 = [])
  ∧ (∃ m2, onAfterResponse Demo.funcs None 5 Demo.the_queue
             (Demo.with_queue [Demo.task 3 []]) = (Normal, Some m2)
           ∧ trace m2 = [EvInvoke 3 []]
           ∧ console (store m2)
             = [[VStr "[elysia-background] Task failed:"; VError "Test sync error"]]
           ∧ globals (store m2) = ∅
           ∧ unhandled m2 = []).
Proof.
  set (m := Demo.with_queue [Demo.task 3 []]).
  set (m1 := (BackgroundTask_run Demo.funcs (Demo.task 3 []) m).2).
  split.
  - destruct (onAfterResponse_routes_failure Demo.funcs (Some Demo.capture) 5
                Demo.the_queue m m1 (VError "Test sync error"))
      as (_ & m2 & l & Hhook & _ & Htr & Hst & Hun); [reflexivity|].
    exists m2. split; [exact Hhook|]. rewrite Htr, Hst, Hun. repeat split.
  - destruct (onAfterResponse_routes_failure Demo.funcs None 5
                Demo.the_queue m m1 (VError "Test sync error"))
      as (_ & m2 & l & Hhook & _ & Htr & Hcon & _ & Hgl & Hun); [reflexivity|].
    exists m2. split; [exact Hhook|]. rewrite Htr, Hcon, Hgl, Hun. repeat split.
Defined.

Lemma BackgroundTask_run_awaits_callable_witness :
  isAsync (Demo.task 0 [VNum 4]) = true
  ∧ ∃ m', BackgroundTask_run Demo.funcs (Demo.task 0 [VNum 4]) Demo.boot = (Fulfilled, m')
          ∧ trace m' = [EvInvoke 0 [VNum 4]]
          ∧ Demo.counter (store m') = 4%Z.
Proof.
  split; [reflexivity|].
  destruct (BackgroundTask_run_awaits_callable Demo.funcs (Demo.task 0 [VNum 4]) Demo.boot)
    as [H _]; [reflexivity|].
  eexists. split; [exact H|]. split; reflexivity.
Defined.

Lemma addTask_appends_witness :
  tasks_at 0 (addTask Demo.funcs Demo.the_queue 0 [VNum 1]
                (store (Demo.with_queue [Demo.task 3 []])))
  = [{| func := 3; args := []; isAsync := true |};
     {| func := 0; args := [VNum 1]; isAsync := true |}]
  ∧ tasks_at 0 (addTask Demo.funcs Demo.the_queue 2 [VBool true; VStr "x"]
                  (store (Demo.with_queue [Demo.task 3 []])))
    = [{| func := 3; args := []; isAsync := true |};
       {| func := 2; args := [VBool true; VStr "x"]; isAsync := false |}]
  ∧ tasks_at 0 (addTask Demo.funcs Demo.the_queue 0 [VNum 1]
                  (store (Demo.with_queue [Demo.task 3 []]))) !! 0
    = Some {| func := 3; args := []; isAsync := true |}
  ∧ tasks_at 7 (addTask Demo.funcs Demo.the_queue 0 [VNum 1]
                  (store (Demo.with_queue [Demo.task 3 []])))
    = [].
Proof.
  destruct (addTask_appends Demo.funcs Demo.the_queue 0 [VNum 1]
              (store (Demo.with_queue [Demo.task 3 []])))
    as (Happ & _ & Hkeep & Hother & _).
  destruct (addTask_appends Demo.funcs Demo.the_queue 2 [VBool true; VStr "x"]
              (store (Demo.with_queue [Demo.task 3 []]))) as (Happ2 & _).
  split; [exact Happ|]. split; [exact Happ2|]. split.
  - apply Hkeep. reflexivity.
  - apply (Hother 7). discriminate.
Defined.

Lemma task_fields_fixed_at_construction_witness :
  isAsync (new_BackgroundTask Demo.funcs 0 [VNum 1]) = true
  ∧ isAsync (new_BackgroundTask Demo.funcs 2 [VNum 1]) ≠ true
  ∧ isAsyncFunction Demo.renamed 0 = false
  ∧ BackgroundTask_run Demo.renamed (Demo.task 0 [VNum 1]) Demo.boot
    = BackgroundTask_run Demo.funcs (Demo.task 0 [VNum 1]) Demo.boot
  ∧ ∃ m', BackgroundTasks_run Demo.funcs 5 Demo.the_queue
            (Demo.with_queue Demo.push_then_fail)
          = Some (Rejected (VError "Test sync error"), m')
          ∧ Demo.push_then_fail `prefix_of` tasks_at 0 (store m').
Proof.
  destruct (task_fields_fixed_at_construction Demo.funcs)
    as (Hnew & Hrun & _ & _ & Hkeep).
  split; [apply (Hnew 0 [VNum 1]); reflexivity|].
  split.
  { intros H. apply (Hnew 2 [VNum 1]) in H. discriminate H. }
  split; [reflexivity|].
  split; [apply Hrun; reflexivity|].
  eexists. split; [vm_compute; reflexivity|].
  apply (Hkeep (λ l, Demo.push_then_fail `prefix_of` l) 0 5 Demo.the_queue
           (Demo.with_queue Demo.push_then_fail) (Rejected (VError "Test sync error"))).
  - intros f x s H. etrans; [exact H|]. apply demo_only_pushes.
  - reflexivity.
  - vm_compute; reflexivity.
Defined.

(** C7 as worded fails: a function that is not async and returns a promise
    can suspend (its awaited call is left pending), yet the name of its
    constructor is "Function", its task gets the flag false, and [run]
    refuses it as synchronous without calling it. *)
Lemma promise_returning_function_is_refused :
  constructor_name (Demo.plain 0) = "Function"
  ∧ (∀ x s, (call (Demo.plain 0) x s).1 = Pending)
  ∧ isAsync (new_BackgroundTask Demo.plain 0 []) = false
  ∧ (∀ m, BackgroundTask_run Demo.plain (new_BackgroundTask Demo.plain 0 []) m
          = (Rejected TaskKindError, m))
  ∧ ¬ flag_tells_suspension Demo.plain.
Proof.
  split; [reflexivity|]. split; [reflexivity|]. split; [reflexivity|].
  split; [reflexivity|].
  intros H. specialize (H 0 [] [] Demo.empty_store eq_refl). discriminate H.
Qed.

Lemma pushed_task_runs_after_successes_witness :
  (∃ m', BackgroundTasks_run Demo.funcs 3 Demo.the_queue (Demo.with_queue [Demo.task 5 []])
         = Some (Fulfilled, m')
         ∧ trace m' = [EvInvoke 5 []; EvInvoke 0 [VNum 10]]
         ∧ tasks_at 0 (store m') = [Demo.task 5 []; Demo.task 0 [VNum 10]]
         ∧ Demo.counter (store m') = 10%Z)
  ∧ (∃ m', BackgroundTasks_run Demo.funcs 5 Demo.the_queue
             (Demo.with_queue Demo.push_then_fail)
           = Some (Rejected (VError "Test sync error"), m')
           ∧ tasks_at 0 (store m') !! 2 = Some (Demo.task 0 [VNum 10])
           ∧ ∃ k, k ≤ 2 ∧ trace m' = map invocation (take k (tasks_at 0 (store m')))).
Proof.
  split.
  - set (m := Demo.with_queue [Demo.task 5 []]).
    set (mj := (BackgroundTask_run Demo.funcs (Demo.task 5 []) m).2).
    destruct (pushed_task_runs_after_successes Demo.funcs Demo.the_queue m mj 1 1
                (Demo.task 0 [VNum 10])) as [H1 _].
    + apply demo_only_pushes.
    + lia.
    + reflexivity.
    + reflexivity.
    + destruct (H1 mj eq_refl) as (_ & _ & Hstep & _).
      eexists. split; [etrans; [exact (Hstep 1)|]; vm_compute; reflexivity|].
      repeat split.
  - set (m := Demo.with_queue Demo.push_then_fail).
    set (mi := (BackgroundTask_run Demo.funcs (Demo.task 5 []) m).2).
    set (m' := (BackgroundTask_run Demo.funcs (Demo.task 3 []) mi).2).
    destruct (pushed_task_runs_after_successes Demo.funcs Demo.the_queue m mi 1 2
                (Demo.task 0 [VNum 10])) as [_ H2].
    + apply demo_only_pushes.
    + lia.
    + reflexivity.
    + reflexivity.
    + destruct (H2 eq_refl 5 (Rejected (VError "Test sync error")) m')
        as (_ & Hj & k & Hk & Htr); [vm_compute; reflexivity|].
      exists m'. split; [vm_compute; reflexivity|]. split; [exact Hj|].
      exists k. split; [exact Hk|]. exact Htr.
Defined.


(** C9 as worded fails: the first task pushes a task and succeeds, the
    second task fails, and the drain stops there. The pushed task sits in the
    array at index 2 and is never run. *)
Lemma pushed_task_skipped_when_earlier_fails :
  ∃ m', BackgroundTasks_run Demo.funcs 10 Demo.the_queue
          (Demo.with_queue Demo.push_then_fail)
        = Some (Rejected (VError "Test sync error"), m')
        ∧ tasks_at 0 (store m')
          = [Demo.task 5 []; Demo.task 3 []; Demo.task 0 [VNum 10]]
        ∧ trace m' = [EvInvoke 5 []; EvInvoke 3 []]
        ∧ Demo.counter (store m') = 0%Z
        ∧ ¬ pushed_tasks_always_run Demo.funcs.
Proof.
  eexists. split; [vm_compute; reflexivity|]. do 3 (split; [reflexivity|]).
  intros H.
  specialize (H Demo.the_queue 10 (Demo.with_queue Demo.push_then_fail) _ _ 2
                (Demo.task 0 [VNum 10]) eq_refl).
  simpl in H. specialize (H (le_n 2) eq_refl eq_refl).
  apply elem_of_cons in H as [H|H]; [discriminate|].
  apply elem_of_cons in H as [H|H]; [discriminate|].
  now apply elem_of_nil in H.
Qed.

(** ** Callables that write the array they are drained from *)

(** What [enqueue_more] does to the store is a call of [addTask]. *)
Example enqueue_more_is_addTask (x : list Value) (s : Store) :
  (call Demo.enqueue_more x s).2 = addTask Demo.funcs Demo.the_queue 0 [VNum 10] s.
Proof. reflexivity. Qed.

(** The loop reads the array as it is at each step: the task that the first
    task pushes is run in the same drain. Draining the list that the array
    held at the start would have stopped before it. *)
Example live_array_not_snapshot :
  ∃ m' ms,
    BackgroundTasks_run Demo.funcs 5 Demo.the_queue (Demo.with_queue [Demo.task 5 []])
    = Some (Fulfilled, m')
    ∧ trace m' = [EvInvoke 5 []; EvInvoke 0 [VNum 10]]
    ∧ run_tasks Demo.funcs [Demo.task 5 []] (Demo.with_queue [Demo.task 5 []])
      = (Fulfilled, ms)
    ∧ trace ms = [EvInvoke 5 []].
Proof.
  do 2 eexists. split; [vm_compute; reflexivity|]. split; [reflexivity|].
  split; [vm_compute; reflexivity|]. reflexivity.
Qed.

(** A callable that empties the array ends the drain: the task behind it is
    gone when the loop looks for it. *)
Example callable_can_empty_the_queue :
  ∃ m',
    BackgroundTasks_run Demo.hostile 5 Demo.the_queue
      (Demo.with_queue [Demo.wiper; Demo.bystander])
    = Some (Fulfilled, m')
    ∧ tasks_at 0 (store m') = []
    ∧ trace m' = [EvInvoke 0 []].
Proof. eexists. split; [vm_compute; reflexivity|]. split; reflexivity. Qed.

(** A task that pushes itself again each time it runs keeps the drain going
    for ever: no amount of fuel brings a result. *)
Lemma respawn_loop (fuel i : nat) (m : Machine) :
  tasks_at 0 (store m) = replicate (S i) Demo.respawner →
  run_loop Demo.hostile fuel 0 i m = None.
Proof.
  revert i m. induction fuel as [|fuel IH]; intros i m Ha; [done|].
  rewrite run_loop_unfold, Ha, lookup_replicate_2 by lia.
  rewrite run_async by done. simpl. apply IH.
  change (tasks_at 0 (set_tasks 0 (tasks_at 0 (store m) ++ [Demo.respawner]) (store m))
          = replicate (S (S i)) Demo.respawner).
  rewrite tasks_at_set_tasks, Ha. symmetry. apply replicate_S_end.
Qed.

Example respawn_never_ends (fuel : nat) :
  BackgroundTasks_run Demo.hostile fuel Demo.the_queue (Demo.with_queue [Demo.respawner])
  = None.
Proof. apply respawn_loop. reflexivity. Qed.

(** A second drain of the same queue starts again at the first task. *)
Example second_run_starts_over :
  ∃ m' m'',
    BackgroundTasks_run Demo.funcs 5 Demo.the_queue (Demo.with_queue Demo.fail_in_the_middle)
    = Some (Rejected (VError "Test sync error"), m')
    ∧ BackgroundTasks_run Demo.funcs 5 Demo.the_queue m'
      = Some (Rejected (VError "Test sync error"), m'')
    ∧ trace m'' = [EvInvoke 0 [VNum 5]; EvInvoke 3 []; EvInvoke 0 [VNum 5]; EvInvoke 3 []]
    ∧ Demo.counter (store m'') = 10%Z.
Proof.
  do 2 eexists. split; [vm_compute; reflexivity|].
  split; [vm_compute; reflexivity|]. split; reflexivity.
Qed.

(** A handler that throws: the hook still returns normally, and the value
    thrown is left as an unhandled rejection. *)
Example throwing_handler :
  ∃ m2,
    onAfterResponse Demo.funcs (Some Demo.rethrow) 5 Demo.the_queue
      (Demo.with_queue [Demo.task 3 []])
    = (Normal, Some m2)
    ∧ trace m2 = [EvInvoke 3 []; EvOnError (VError "Test sync error")]
    ∧ unhandled m2 = [VError "Test sync error"]
    ∧ console (store m2) = [].
Proof. eexists. split; [vm_compute; reflexivity|]. repeat split. Qed.

(** A task that never settles: the drain never settles either, the task
    behind it is not started, and no sink is called. *)
Example stuck_task_blocks_the_rest :
  ∃ m2,
    onAfterResponse Demo.funcs (Some Demo.capture) 5 Demo.the_queue
      (Demo.with_queue [Demo.task 4 []; Demo.task 0 [VNum 1]])
    = (Normal, Some m2)
    ∧ trace m2 = [EvInvoke 4 []]
    ∧ Demo.counter (store m2) = 0%Z.
Proof. eexists. split; [vm_compute; reflexivity|]. repeat split. Qed.

(** * Further properties of the queue, the hooks and the test helpers *)

Section QueueFacts.

Variable funcs : FuncRef -> FuncObj.

(** A drained list that is fulfilled holds async tasks only. *)
Lemma run_tasks_all_async (l : list BackgroundTask) (m m' : Machine) :
  run_tasks funcs l m = (Fulfilled, m') → Forall (λ t, isAsync t = true) l.
Proof.
  revert m. induction l as [|t l IH]; intros m; [constructor|].
  rewrite run_tasks_cons.
  destruct (BackgroundTask_run funcs t m) as [[] m1] eqn:Hr; try done.
  intros H. constructor; [|eauto].
  now apply run_fulfilled_inv in Hr as [? _].
Qed.

(** Draining a list invokes the callables of an initial stretch of it. *)
Lemma run_tasks_trace (l : list BackgroundTask) (m : Machine) :
  ∃ k, trace (run_tasks funcs l m).2 = trace m ++ map invocation (take k l).
Proof.
  revert m. induction l as [|t l IH]; intros m.
  - exists 0. simpl. now rewrite app_nil_r.
  - rewrite run_tasks_cons. pose proof (run_trace funcs t m) as Ht.
    destruct (BackgroundTask_run funcs t m) as [[] m1] eqn:Hr; simpl in Ht.
    + apply run_fulfilled_inv in Hr as (Ha & _). rewrite Ha in Ht.
      destruct (IH m1) as [k Hk]. exists (S k). simpl.
      now rewrite Hk, Ht, <- app_assoc.
    + destruct (isAsync t); [exists 1|exists 0]; simpl; now rewrite Ht, ?take_0.
    + destruct (isAsync t); [exists 1|exists 0]; simpl; now rewrite Ht, ?take_0.
Qed.

(** X2. The queue that [derive] makes shares nothing with a queue that is
    already there: it is on another array, adding a task to it leaves the
    other queue as it was, and adding a task to the other queue leaves it
    empty. *)
Theorem derived_queue_is_separate (s : Store) (other : BackgroundTasks)
    (f : FuncRef) (x : list Value) :
  tasks other ∈ dom (arrays s) →
  tasks ((derive s).1) ≠ tasks other
  ∧ tasks_at (tasks other) (addTask funcs ((derive s).1) f x ((derive s).2))
    = tasks_at (tasks other) s
  ∧ tasks_at (tasks ((derive s).1)) (addTask funcs other f x ((derive s).2)) = [].
Proof.
  intros Hin.
  assert (tasks ((derive s).1) ≠ tasks other) as Hne.
  { intros Heq. apply (is_fresh (dom (arrays s))).
    change (tasks ((derive s).1) ∈ dom (arrays s)). now rewrite Heq. }
  split; [done|]. unfold addTask. split.
  - rewrite tasks_at_set_tasks_ne by done. unfold derive. simpl.
    now apply tasks_at_set_tasks_ne.
  - rewrite tasks_at_set_tasks_ne by done. apply tasks_at_set_tasks.
Qed.

(** X3. Tasks registered one after the other end up behind the tasks that
    were in the queue, in the order of registration, each as the constructor
    builds it; other arrays, the variables and the console are untouched. *)
Theorem addTasks_appends_in_order (q : BackgroundTasks)
    (l : list (FuncRef * list Value)) (s : Store) :
  tasks_at (tasks q) (addTasks funcs q l s)
  = tasks_at (tasks q) s ++ map (λ p, new_BackgroundTask funcs p.1 p.2) l
  ∧ (∀ b, b ≠ tasks q → tasks_at b (addTasks funcs q l s) = tasks_at b s)
  ∧ globals (addTasks funcs q l s) = globals s
  ∧ console (addTasks funcs q l s) = console s.
Proof.
  revert s. induction l as [|p l IH]; intros s; simpl.
  - now rewrite app_nil_r.
  - destruct (IH (addTask funcs q p.1 p.2 s)) as (H1 & H2 & H3 & H4).
    unfold addTasks in *. rewrite H1, H3, H4. unfold addTask at 1.
    rewrite tasks_at_set_tasks, <- app_assoc. split; [done|]. split; [|done].
    intros b Hb. rewrite H2 by done. unfold addTask.
    now apply tasks_at_set_tasks_ne.
Qed.

End QueueFacts.

Section HookFacts.

Variable funcs : FuncRef -> FuncObj.

Lemma derive_tasks_empty (s : Store) :
  tasks_at (tasks ((derive s).1)) ((derive s).2) = [].
Proof. apply tasks_at_set_tasks. Qed.

Lemma addTasks_tasks (q : BackgroundTasks) (l : list (FuncRef * list Value))
    (s : Store) :
  tasks_at (tasks q) (addTasks funcs q l s)
  = tasks_at (tasks q) s ++ map (λ p, new_BackgroundTask funcs p.1 p.2) l.
Proof.
  revert s. induction l as [|p l IH]; intros s; simpl.
  - now rewrite app_nil_r.
  - unfold addTasks in *. rewrite IH. unfold addTask.
    now rewrite tasks_at_set_tasks, <- app_assoc.
Qed.

(** X4. One request from end to end: the queue that [derive] makes, a
    route handler that registers the pairs of [l] in order, then the
    [onAfterResponse] hook. When the callables leave the queue's array alone
    and every task succeeds in its turn, the hook returns normally and the
    chain it starts invokes the registered callables once each, with their
    arguments, in the order of registration; it invokes nothing else, calls
    no error handler and leaves no rejection unhandled. *)
Theorem registered_tasks_drain_in_order (options : option BackgroundOptions)
    (l : list (FuncRef * list Value)) (m : Machine) :
  Forall (λ p, leaves_array funcs (tasks ((derive (store m)).1)) p.1) l →
  succeed_in_turn funcs (map (λ p, new_BackgroundTask funcs p.1 p.2) l)
    (set_store (addTasks funcs ((derive (store m)).1) l ((derive (store m)).2)) m) →
  ∀ fuel, length l < fuel →
    ∃ m', handle funcs options (λ q s, addTasks funcs q l s) fuel m = (Normal, Some m')
          ∧ trace m' = trace m ++ map (λ p, EvInvoke p.1 p.2) l
          ∧ unhandled m' = unhandled m.
Proof.
  intros Hl Hs fuel Hf. unfold handle, onAfterResponse, detached. cbv zeta.
  set (q := (derive (store m)).1) in *. set (s1 := (derive (store m)).2) in *.
  set (m0 := set_store (addTasks funcs q l s1) m) in *.
  set (ts := map (λ p, new_BackgroundTask funcs p.1 p.2) l) in *.
  assert (tasks_at (tasks q) (store m0) = ts) as Ha.
  { change (store m0) with (addTasks funcs q l s1).
    rewrite addTasks_tasks. unfold q, s1. now rewrite derive_tasks_empty. }
  assert (Forall (λ t, leaves_array funcs (tasks q) (func t)) ts) as Hts.
  { unfold ts. apply Forall_map. exact Hl. }
  unfold BackgroundTasks_run.
  change 0 with (length (@nil BackgroundTask)).
  rewrite (run_loop_leaves funcs (tasks q) ts Hts [] m0 fuel Ha)
    by (unfold ts; rewrite length_map; lia).
  destruct (run_tasks_succeed funcs ts m0 Hs) as (m' & -> & _ & Htr & Hun).
  exists m'. split; [done|]. rewrite Htr, Hun. split; [|done].
  unfold ts. now rewrite map_map.
Qed.

(** X5. A drain that is not rejected reports nothing: the chain that the
    hook starts ends in the machine that the drain left, in which only
    callables of tasks have been invoked (no error handler), no rejection has
    been added to the unhandled ones, and, when no callable writes to the
    console, the console is as before. *)
Theorem hook_silent_unless_rejected (options : option BackgroundOptions)
    (fuel : nat) (q : BackgroundTasks) (m m' : Machine) (o : Outcome) :
  BackgroundTasks_run funcs fuel q m = Some (o, m') →
  (∀ e, o ≠ Rejected e) →
  onAfterResponse funcs options fuel q m = (Normal, Some m')
  ∧ (∃ l, trace m' = trace m ++ map invocation l)
  ∧ unhandled m' = unhandled m
  ∧ ((∀ f x s, console (call (funcs f) x s).2 = console s) →
     console (store m') = console (store m)).
Proof.
  intros Hr Ho. split.
  - unfold onAfterResponse, detached. rewrite Hr.
    destruct o as [|e|]; [done| |done]. now destruct (Ho e).
  - destruct (run_loop_trace funcs _ _ _ _ _ _ Hr) as [Hl Hu].
    split; [done|]. split; [done|]. intros Hc.
    refine (run_loop_keeps funcs (λ s, console s = console (store m))
              _ _ _ _ _ _ _ _ Hr); [|done].
    intros f x s Hs. now rewrite Hc.
Qed.

(** X6. With callables that at most push on the queue's array, a drain is
    fulfilled only when every task in the array, at the start and at the
    end, is async: one task built from a function that is not async keeps
    [run] from ever being fulfilled. *)
Theorem fulfilled_drain_has_only_async_tasks (q : BackgroundTasks) (fuel : nat)
    (m m' : Machine) :
  (∀ f, only_pushes funcs (tasks q) f) →
  BackgroundTasks_run funcs fuel q m = Some (Fulfilled, m') →
  Forall (λ t, isAsync t = true) (tasks_at (tasks q) (store m'))
  ∧ Forall (λ t, isAsync t = true) (tasks_at (tasks q) (store m)).
Proof.
  intros Hp Hr.
  destruct (run_loop_pushes funcs (tasks q) Hp _ _ _ _ _ Hr) as (Hpre & k & Hk & Hlen).
  rewrite drop_0, take_ge in Hk by (specialize (Hlen eq_refl); lia).
  apply run_tasks_all_async in Hk. split; [done|].
  destruct Hpre as [rest Hrest]. rewrite Hrest in Hk.
  now apply Forall_app in Hk as [? _].
Qed.

(** X7. A task that never settles stalls the drain without a word: once
    the tasks before it have succeeded, [run] never settles either, in the
    machine that the call of that task left; no later task is started and the
    hook, which has returned normally, calls no error handler and writes no
    console line. *)
Theorem never_settling_task_stalls_drain (options : option BackgroundOptions)
    (q : BackgroundTasks) (m mj m2 : Machine) (j : nat) (t : BackgroundTask) :
  advance funcs j (tasks q) 0 m = Some mj →
  tasks_at (tasks q) (store mj) !! j = Some t →
  BackgroundTask_run funcs t mj = (Pending, m2) →
  ∀ fuel, j < fuel →
    BackgroundTasks_run funcs fuel q m = Some (Pending, m2)
    ∧ onAfterResponse funcs options fuel q m = (Normal, Some m2)
    ∧ store m2 = effect funcs (store mj) t
    ∧ trace m2 = trace mj ++ [invocation t]
    ∧ unhandled m2 = unhandled mj.
Proof.
  intros Hadv Hj Ht fuel Hf.
  assert (BackgroundTasks_run funcs fuel q m = Some (Pending, m2)) as Hr.
  { unfold BackgroundTasks_run. replace fuel with (j + S (fuel - S j)) by lia.
    rewrite (run_loop_advance funcs _ _ _ _ _ _ Hadv), run_loop_unfold. simpl.
    now rewrite Hj, Ht. }
  split; [done|]. split.
  { unfold onAfterResponse, detached. now rewrite Hr. }
  destruct (isAsync t) eqn:Ha.
  - rewrite run_async in Ht by done. now injection Ht as _ <-.
  - rewrite run_not_async in Ht by done. discriminate.
Qed.

(** X9. With callables that at most push on the queue's array, the
    callables that a drain has invoked when it ends, whatever its outcome,
    are those of the first tasks of the array as it is then, in the order of
    the array and once each: no task is skipped, run twice or run out of
    turn. *)
Theorem drain_invokes_initial_segment (q : BackgroundTasks) (fuel : nat)
    (m m' : Machine) (o : Outcome) :
  (∀ f, only_pushes funcs (tasks q) f) →
  BackgroundTasks_run funcs fuel q m = Some (o, m') →
  ∃ k, trace m' = trace m ++ map invocation (take k (tasks_at (tasks q) (store m'))).
Proof.
  intros Hp Hr.
  destruct (run_loop_pushes funcs (tasks q) Hp _ _ _ _ _ Hr) as (_ & k1 & Hk & _).
  rewrite drop_0 in Hk.
  destruct (run_tasks_trace funcs (take k1 (tasks_at (tasks q) (store m'))) m)
    as [k2 Hk2].
  rewrite Hk in Hk2. simpl in Hk2. exists (k2 `min` k1).
  now rewrite <- take_take.
Qed.

End HookFacts.

Section RequestFacts.

Variable funcs : FuncRef -> FuncObj.

(** X10. One request whose tasks fail part way: the route handler
    registers [l1], then [p], then [l2]; the tasks of [l1] leave the array
    alone and succeed in their turn and the task of [p] is rejected with [e].
    The hook returns normally, the configured handler is called once with [e]
    in the store that the failed task left, after the invocations of [l1] and
    of [p], and no callable of [l2] is invoked. *)
Theorem registered_failure_reaches_handler
    (handler : Value → Store → Completion * Store)
    (l1 l2 : list (FuncRef * list Value)) (p : FuncRef * list Value)
    (m m1 m2 : Machine) (e : Value) :
  Forall (λ r, leaves_array funcs (tasks ((derive (store m)).1)) r.1) l1 →
  run_tasks funcs (map (λ r, new_BackgroundTask funcs r.1 r.2) l1)
    (set_store (addTasks funcs ((derive (store m)).1) (l1 ++ p :: l2)
                  ((derive (store m)).2)) m)
  = (Fulfilled, m1) →
  BackgroundTask_run funcs (new_BackgroundTask funcs p.1 p.2) m1 = (Rejected e, m2) →
  ∀ fuel, length l1 < fuel →
    ∃ m3, handle funcs (Some {| onError := Some handler |})
            (λ q s, addTasks funcs q (l1 ++ p :: l2) s) fuel m
          = (Normal, Some m3)
          ∧ trace m3
            = trace m ++ map (λ r, EvInvoke r.1 r.2) l1
              ++ (if isAsyncFunction funcs p.1 then [EvInvoke p.1 p.2] else [])
              ++ [EvOnError e]
          ∧ store m3 = (handler e (store m2)).2.
Proof.
  intros Hl Hr Ht fuel Hf. unfold handle, onAfterResponse, detached. cbv zeta.
  set (q := (derive (store m)).1) in *. set (s1 := (derive (store m)).2) in *.
  set (m0 := set_store (addTasks funcs q (l1 ++ p :: l2) s1) m) in *.
  set (new := λ r : FuncRef * list Value, new_BackgroundTask funcs r.1 r.2) in *.
  change (new_BackgroundTask funcs p.1 p.2) with (new p) in Ht.
  assert (tasks_at (tasks q) (store m0) = map new l1 ++ new p :: map new l2) as Ha.
  { change (store m0) with (addTasks funcs q (l1 ++ p :: l2) s1).
    rewrite addTasks_tasks. unfold q, s1. rewrite derive_tasks_empty.
    now rewrite map_app. }
  assert (Forall (λ t, leaves_array funcs (tasks q) (func t)) (map new l1)) as Hts.
  { apply Forall_map. exact Hl. }
  destruct (advance_leaves funcs (tasks q) (map new l1) Hts [] (new p :: map new l2)
              m0 m1 Ha Hr) as [Hadv Ha1].
  rewrite length_map in Hadv.
  assert (BackgroundTasks_run funcs fuel q m0 = Some (Rejected e, m2)) as Hrun.
  { unfold BackgroundTasks_run. replace fuel with (length l1 + S (fuel - S (length l1))) by lia.
    rewrite (run_loop_advance funcs _ _ _ _ _ _ Hadv), run_loop_unfold, Ha1.
    rewrite app_nil_l.
    rewrite (list_lookup_middle (map new l1) (map new l2) (new p))
      by (simpl; now rewrite length_map).
    now rewrite Ht. }
  rewrite Hrun. eexists. split; [reflexivity|].
  unfold catch_callback. simpl. split; [|done].
  destruct (run_tasks_succeed funcs (map new l1) m0) as (m1' & Hr' & _ & Ht1 & _).
  { eapply run_tasks_fulfilled_inv; eauto. }
  rewrite Hr in Hr'. injection Hr' as <-.
  pose proof (run_trace funcs (new p) m1) as Htr. rewrite Ht in Htr. simpl in Htr.
  rewrite Htr, Ht1, map_map, <- !app_assoc. done.
Qed.

End RequestFacts.

(** ** The further properties at concrete inputs *)

Lemma demo_keeps_console (f : FuncRef) (x : list Value) (s : Store) :
  console (call (Demo.funcs f) x s).2 = console s.
Proof. do 6 (destruct f as [|f]; [reflexivity|]). reflexivity. Qed.

Lemma derived_queue_is_separate_witness :
  tasks ((derive (store (Demo.with_queue [Demo.task 0 [VNum 1]]))).1) ≠ 0
  ∧ tasks_at 0
      (addTask Demo.funcs ((derive (store (Demo.with_queue [Demo.task 0 [VNum 1]]))).1)
         3 [] ((derive (store (Demo.with_queue [Demo.task 0 [VNum 1]]))).2))
    = [Demo.task 0 [VNum 1]]
  ∧ tasks_at (tasks ((derive (store (Demo.with_queue [Demo.task 0 [VNum 1]]))).1))
      (addTask Demo.funcs Demo.the_queue 3 []
         ((derive (store (Demo.with_queue [Demo.task 0 [VNum 1]]))).2))
    = [].
Proof.
  apply (derived_queue_is_separate Demo.funcs
           (store (Demo.with_queue [Demo.task 0 [VNum 1]])) Demo.the_queue 3 []).
  apply elem_of_dom. eexists. reflexivity.
Defined.

Lemma addTasks_appends_in_order_witness :
  tasks_at 0 (addTasks Demo.funcs Demo.the_queue [(0, [VNum 2]); (3, [])]
                (store (Demo.with_queue [Demo.task 0 [VNum 1]])))
  = [Demo.task 0 [VNum 1]; Demo.task 0 [VNum 2]; Demo.task 3 []]
  ∧ tasks_at 7 (addTasks Demo.funcs Demo.the_queue [(0, [VNum 2]); (3, [])]
                  (store (Demo.with_queue [Demo.task 0 [VNum 1]])))
    = [].
Proof.
  destruct (addTasks_appends_in_order Demo.funcs Demo.the_queue
              [(0, [VNum 2]); (3, [])] (store (Demo.with_queue [Demo.task 0 [VNum 1]])))
    as (H1 & H2 & _).
  split; [exact H1|]. apply (H2 7). discriminate.
Defined.

Lemma registered_tasks_drain_in_order_witness :
  ∃ m', handle Demo.funcs None
          (λ q s, addTasks Demo.funcs q [(0, [VNum 1]); (0, [VNum 2]); (0, [VNum 3])] s)
          4 Demo.boot
        = (Normal, Some m')
        ∧ trace m' = [EvInvoke 0 [VNum 1]; EvInvoke 0 [VNum 2]; EvInvoke 0 [VNum 3]]
        ∧ unhandled m' = [].
Proof.
  apply (registered_tasks_drain_in_order Demo.funcs None
           [(0, [VNum 1]); (0, [VNum 2]); (0, [VNum 3])] Demo.boot).
  - repeat (constructor; [apply increment_leaves|]). constructor.
  - vm_compute. auto.
  - simpl. lia.
Defined.

Lemma hook_silent_unless_rejected_witness :
  ∃ m', onAfterResponse Demo.funcs (Some Demo.capture) 4 Demo.the_queue
          (Demo.with_queue Demo.three_increments)
        = (Normal, Some m')
        ∧ unhandled m' = []
        ∧ console (store m') = [].
Proof.
  set (m := Demo.with_queue Demo.three_increments).
  set (m' := (run_tasks Demo.funcs Demo.three_increments m).2).
  destruct (hook_silent_unless_rejected Demo.funcs (Some Demo.capture) 4
              Demo.the_queue m m' Fulfilled) as (Hhook & _ & Hun & Hcon).
  - vm_compute; reflexivity.
  - discriminate.
  - exists m'. split; [exact Hhook|]. split; [exact Hun|].
    apply Hcon. apply demo_keeps_console.
Defined.

Lemma fulfilled_drain_has_only_async_tasks_witness :
  Forall (λ t, isAsync t = true) [Demo.task 5 []; Demo.task 0 [VNum 10]]
  ∧ Forall (λ t, isAsync t = true) [Demo.task 5 []].
Proof.
  set (m := Demo.with_queue [Demo.task 5 []]).
  set (m' := (run_tasks Demo.funcs [Demo.task 5 []; Demo.task 0 [VNum 10]] m).2).
  apply (fulfilled_drain_has_only_async_tasks Demo.funcs Demo.the_queue 3 m m').
  - apply demo_only_pushes.
  - vm_compute; reflexivity.
Defined.

Lemma never_settling_task_stalls_drain_witness :
  ∃ m2, BackgroundTasks_run Demo.funcs 3 Demo.the_queue
          (Demo.with_queue [Demo.task 4 []; Demo.task 0 [VNum 1]])
        = Some (Pending, m2)
        ∧ onAfterResponse Demo.funcs (Some Demo.capture) 3 Demo.the_queue
            (Demo.with_queue [Demo.task 4 []; Demo.task 0 [VNum 1]])
          = (Normal, Some m2)
        ∧ trace m2 = [EvInvoke 4 []].
Proof.
  set (m := Demo.with_queue [Demo.task 4 []; Demo.task 0 [VNum 1]]).
  set (m2 := (BackgroundTask_run Demo.funcs (Demo.task 4 []) m).2).
  destruct (never_settling_task_stalls_drain Demo.funcs (Some Demo.capture)
              Demo.the_queue m m m2 0 (Demo.task 4 [])) with (fuel := 3)
    as (Hr & Hh & _ & Htr & _).
  - reflexivity.
  - reflexivity.
  - reflexivity.
  - lia.
  - exists m2. split; [exact Hr|]. split; [exact Hh|]. exact Htr.
Defined.

Lemma drain_invokes_initial_segment_witness :
  ∃ k, [EvInvoke 5 []; EvInvoke 3 []]
       = map invocation
           (take k [Demo.task 5 []; Demo.task 3 []; Demo.task 0 [VNum 10]]).
Proof.
  set (m := Demo.with_queue Demo.push_then_fail).
  set (m' := (run_tasks Demo.funcs Demo.push_then_fail m).2).
  apply (drain_invokes_initial_segment Demo.funcs Demo.the_queue 5 m m'
           (Rejected (VError "Test sync error"))).
  - apply demo_only_pushes.
  - vm_compute; reflexivity.
Defined.

Lemma registered_failure_reaches_handler_witness :
  ∃ m3, handle Demo.funcs (Some Demo.capture)
          (λ q s, addTasks Demo.funcs q [(0, [VNum 5]); (3, []); (0, [VNum 7])] s)
          4 Demo.boot
        = (Normal, Some m3)
        ∧ trace m3
          = [EvInvoke 0 [VNum 5]; EvInvoke 3 []; EvOnError (VError "Test sync error")]
        ∧ globals (store m3) !! "capturedError" = Some (VError "Test sync error").
Proof.
  set (s := addTasks Demo.funcs ((derive (store Demo.boot)).1)
              [(0, [VNum 5]); (3, []); (0, [VNum 7])] ((derive (store Demo.boot)).2)).
  set (m1 := (run_tasks Demo.funcs [Demo.task 0 [VNum 5]] (set_store s Demo.boot)).2).
  set (m2 := (BackgroundTask_run Demo.funcs (Demo.task 3 []) m1).2).
  destruct (registered_failure_reaches_handler Demo.funcs
              (λ e st, (Normal, Demo.set_global "capturedError" e st))
              [(0, [VNum 5])] [(0, [VNum 7])] (3, []) Demo.boot m1 m2
              (VError "Test sync error")) with (fuel := 4) as (m3 & Hh & Htr & Hst).
  - repeat (constructor; [apply increment_leaves|]). constructor.
  - vm_compute; reflexivity.
  - vm_compute; reflexivity.
  - simpl. lia.
  - exists m3. split; [exact Hh|]. split; [exact Htr|]. rewrite Hst. reflexivity.
Defined.

(** ** Draining, registering again, draining again *)

Section Reuse.

Variable funcs : FuncRef -> FuncObj.

Lemma drain_leaves_array (q : BackgroundTasks) (l : list BackgroundTask)
    (fuel : nat) (m m' : Machine) (o : Outcome) :
  tasks_at (tasks q) (store m) = l →
  Forall (λ t, leaves_array funcs (tasks q) (func t)) l →
  BackgroundTasks_run funcs fuel q m = Some (o, m') →
  tasks_at (tasks q) (store m') = l.
Proof.
  intros Ha Hl Hr.
  apply (run_loop_mono funcs fuel (fuel + S (length l))) in Hr; [|lia].
  unfold BackgroundTasks_run in Hr.
  rewrite (run_loop_leaves funcs (tasks q) l Hl [] m) in Hr by (done || lia).
  injection Hr as Hr.
  pose proof (run_tasks_leaves funcs (tasks q) l Hl m) as Hk.
  rewrite Hr in Hk. simpl in Hk. congruence.
Qed.

(** X11. A queue is not emptied by a drain, so using it again runs its
    old tasks again: on a queue whose callables leave its array alone, after
    a first drain, whatever its outcome, and one more [addTask], a second
    [run] drains the old tasks from the first one on and only then the new
    task. *)
Theorem drain_then_addTask_reruns_old_tasks (q : BackgroundTasks)
    (l : list BackgroundTask) (f : FuncRef) (x : list Value) (fuel : nat)
    (m m1 : Machine) (o : Outcome) :
  tasks_at (tasks q) (store m) = l →
  Forall (λ t, leaves_array funcs (tasks q) (func t)) l →
  leaves_array funcs (tasks q) f →
  BackgroundTasks_run funcs fuel q m = Some (o, m1) →
  ∀ fuel', S (length l) < fuel' →
    BackgroundTasks_run funcs fuel' q (set_store (addTask funcs q f x (store m1)) m1)
    = Some (run_tasks funcs (l ++ [new_BackgroundTask funcs f x])
              (set_store (addTask funcs q f x (store m1)) m1)).
Proof.
  intros Ha Hl Hf Hr fuel' Hfuel.
  pose proof (drain_leaves_array q l fuel m m1 o Ha Hl Hr) as Ha1.
  apply (run_loop_leaves funcs (tasks q) (l ++ [new_BackgroundTask funcs f x]))
    with (done := []).
  - apply Forall_app. split; [done|]. now constructor.
  - simpl. unfold addTask. now rewrite tasks_at_set_tasks, Ha1.
  - rewrite length_app. simpl. lia.
Qed.

End Reuse.

Lemma drain_then_addTask_reruns_old_tasks_witness :
  ∃ m2, BackgroundTasks_run Demo.funcs 5 Demo.the_queue
          (set_store
             (addTask Demo.funcs Demo.the_queue 0 [VNum 4]
                (store (run_tasks Demo.funcs Demo.three_increments
                          (Demo.with_queue Demo.three_increments)).2))
             (run_tasks Demo.funcs Demo.three_increments
                (Demo.with_queue Demo.three_increments)).2)
        = Some (Fulfilled, m2)
        ∧ trace m2
          = [EvInvoke 0 [VNum 1]; EvInvoke 0 [VNum 2]; EvInvoke 0 [VNum 3];
             EvInvoke 0 [VNum 1]; EvInvoke 0 [VNum 2]; EvInvoke 0 [VNum 3];
             EvInvoke 0 [VNum 4]]
        ∧ Demo.counter (store m2) = 16%Z.
Proof.
  set (m := Demo.with_queue Demo.three_increments).
  set (m1 := (run_tasks Demo.funcs Demo.three_increments m).2).
  pose proof (drain_then_addTask_reruns_old_tasks Demo.funcs Demo.the_queue
                Demo.three_increments 0 [VNum 4] 4 m m1 Fulfilled) as H.
  eexists. split.
  - rewrite (H eq_refl); [vm_compute; reflexivity| | |vm_compute; reflexivity|simpl; lia].
    + repeat (constructor; [apply increment_leaves|]). constructor.
    + apply increment_leaves.
  - split; reflexivity.
Defined.

(** ** When the runtime has control back *)

Section TurnFacts.

Variable funcs : FuncRef -> FuncObj.
Variable waits : FuncRef -> list Value -> Store -> bool.

Lemma yields_within_unfold (fuel : nat) (a : ArrRef) (i : nat) (m : Machine) :
  yields_within funcs waits (S fuel) a i m
  = match tasks_at a (store m) !! i with
    | None => true
    | Some task =>
        if isAsync task && waits (func task) (args task) (store m) then true
        else
          match BackgroundTask_run funcs task m with
          | (Fulfilled, m') => yields_within funcs waits fuel a (S i) m'
          | _ => true
          end
    end.
Proof. reflexivity. Qed.

Lemma yields_within_mono (fuel fuel' : nat) (a : ArrRef) (i : nat) (m : Machine) :
  yields_within funcs waits fuel a i m = true → fuel ≤ fuel' →
  yields_within funcs waits fuel' a i m = true.
Proof.
  revert fuel' i m. induction fuel as [|fuel IH]; intros fuel' i m; [done|].
  destruct fuel' as [|fuel']; [lia|]. rewrite !yields_within_unfold.
  destruct (tasks_at a (store m) !! i) as [t|]; [|done].
  destruct (isAsync t && waits (func t) (args t) (store m)); [done|].
  destruct (BackgroundTask_run funcs t m) as [[] m1]; try done.
  intros H ?. apply IH; [done|lia].
Qed.




End TurnFacts.





(** C1 as worded fails on queues whose callables write the array. The
    first task empties the array: the drain is fulfilled, yet the second
    task, which was queued and would have succeeded, was never run. A task
    that registers itself again each time succeeds every time, and the drain
    never ends. *)
Lemma queued_task_skipped_or_drain_endless :
  (∃ m', BackgroundTasks_run Demo.hostile 5 Demo.the_queue
           (Demo.with_queue [Demo.wiper; Demo.bystander])
         = Some (Fulfilled, m')
         ∧ trace m' = [EvInvoke 0 []]
         ∧ tasks_at 0 (store m') = [])
  ∧ (∀ m, (BackgroundTask_run Demo.hostile Demo.wiper m).1 = Fulfilled)
  ∧ (∀ m, (BackgroundTask_run Demo.hostile Demo.bystander m).1 = Fulfilled)
  ∧ (∀ m, (BackgroundTask_run Demo.hostile Demo.respawner m).1 = Fulfilled)
  ∧ (∀ fuel, BackgroundTasks_run Demo.hostile fuel Demo.the_queue
               (Demo.with_queue [Demo.respawner]) = None).
Proof.
  split; [eexists; split; [vm_compute; reflexivity|]; split; reflexivity|].
  do 3 (split; [reflexivity|]).
  intros fuel. now apply respawn_loop.
Qed.
